(** * LoopFeatureExtractor: a shallow embedding of the loop feature pass

    The development follows [LoopFeatureExtractor.cpp]: the module pass
    [run], the per-loop walk [analyzeLoop], and the three static helpers
    [initializeOutFile], [initializeCodeIDCounter], [saveCodeIDCounter].

    Conventions.
    - A [BasicBlock *] is a [positive] (the identity of the block); the
      [std::set<BasicBlock *>] of the source is a [gset positive].
    - [int], [unsigned], [uint64_t] and [int64_t] values are integers in
      [Z] with the wrap-around of the C++ type written out ([to_int],
      [wrap_unsigned], [wrap_uint64], [to_int64]).  An [int] counter that
      overflows is given its two's complement value; the statements about
      counters assume that the counted objects fit an [int], which is
      when the C++ behaviour is defined.
    - The host's analyses ([LoopInfo], [ScalarEvolution]) are data: a loop
      is a tree node, the bound oracle is a function of the loop. *)

From Stdlib Require Import ZArith List String Ascii Bool Lia DecimalString.
From stdpp Require Import base gmap.
Import ListNotations.

#[local] Set Warnings "-clear-no-such-hyp".

Open Scope Z_scope.

(** ** The read-only IR consumed by the pass *)

Module IR.

(** Opcodes the pass distinguishes, plus the remaining terminators of the
    IR; every other instruction is [OtherOp]. *)
Inductive Opcode : Type :=
| PHI
| Call
| Load
| Store
| FAdd
| FSub
| FMul
| FDiv
| OtherOp
| Ret
| Br (isConditional : bool)
| Switch
| IndirectBr
| Invoke
| Resume
| Unreachable
| CleanupRet
| CatchRet
| CatchSwitch
| CallBr.

(** A user of a value: an instruction (known by its parent block) or some
    other kind of [User]. *)
Inductive User : Type :=
| UserInstruction (getParent : positive)
| UserOther.

Record Instruction : Type := mkInstruction {
  getOpcode : Opcode;
  getNumOperands : N;
  users : list User
}.

Record BasicBlock : Type := mkBasicBlock {
  bb_ptr : positive;
  getName : string;
  instructions : list Instruction;
  predecessors : list positive;
  successors : list positive
}.

#[local] Unset Elimination Schemes.
Inductive Loop : Type := mkLoop {
  getHeader : BasicBlock;
  blocks : list BasicBlock;
  getLoopDepth : N;
  getSubLoops : list Loop
}.
#[local] Set Elimination Schemes.

(** Result of [ScalarEvolution::getBackedgeTakenCount]. *)
Inductive SCEV : Type :=
| SCEVConstant (value : Z) (* the unsigned value of the constant *)
| SCEVCouldNotCompute
| SCEVSymbolic.

(** The bound oracle of one function; [None] is a null pointer. *)
Definition ScalarEvolution : Type := Loop -> option SCEV.

Record Function : Type := mkFunction {
  fn_name : string;
  isDeclaration : bool;
  LI : list Loop;
  SE : ScalarEvolution
}.

Definition Module_ : Type := list Function.

Definition isTerminator (op : Opcode) : bool :=
  match op with
  | Ret | Br _ | Switch | IndirectBr | Invoke | Resume | Unreachable
  | CleanupRet | CatchRet | CatchSwitch | CallBr => true
  | _ => false
  end.

Definition isa_PHINode (I : Instruction) : bool :=
  match getOpcode I with PHI => true | _ => false end.

Definition isa_CallBase (I : Instruction) : bool :=
  match getOpcode I with Call | Invoke | CallBr => true | _ => false end.

Definition isa_LoadInst (I : Instruction) : bool :=
  match getOpcode I with Load => true | _ => false end.

Definition isa_StoreInst (I : Instruction) : bool :=
  match getOpcode I with Store => true | _ => false end.

Definition isa_BranchInst (I : Instruction) : bool :=
  match getOpcode I with Br _ => true | _ => false end.

Definition isConditionalBranch (I : Instruction) : bool :=
  match getOpcode I with Br c => c | _ => false end.

Definition isa_ReturnInst (I : Instruction) : bool :=
  match getOpcode I with Ret => true | _ => false end.

Definition isa_UnreachableInst (I : Instruction) : bool :=
  match getOpcode I with Unreachable => true | _ => false end.

Definition isFloatArith (I : Instruction) : bool :=
  match getOpcode I with FAdd | FSub | FMul | FDiv => true | _ => false end.

(** [BasicBlock::getTerminator]: the last instruction when it is a
    terminator, a null pointer otherwise (also for an empty block). *)
Definition getTerminator (BB : BasicBlock) : option Instruction :=
  match last (instructions BB) with
  | Some TI => if isTerminator (getOpcode TI) then Some TI else None
  | None => None
  end.

(** [Loop::contains] on a block pointer. *)
Definition contains (L : Loop) (BB : positive) : bool :=
  bool_decide (BB ∈ bb_ptr <$> blocks L).

(** All loops of the tree rooted at [L], parent first. *)
Fixpoint preorder (L : Loop) : list Loop :=
  L :: flat_map preorder (getSubLoops L).

End IR.

Import IR.

(** ** Fixed-width arithmetic of the source *)

(** [int] and [unsigned] are 32 bits wide. *)
Definition INT_MAX : Z := 2 ^ 31 - 1.

Definition UINT_MAX : Z := 2 ^ 32 - 1.

Definition wrap_unsigned (z : Z) : Z := z mod 2 ^ 32.

(** Conversion to [int]: the two's complement value of the low 32 bits. *)
Definition to_int (z : Z) : Z := (z + 2 ^ 31) mod 2 ^ 32 - 2 ^ 31.

Definition wrap_uint64 (z : Z) : Z := z mod 2 ^ 64.

(** Conversion of a [uint64_t] to [int64_t] (two's complement). *)
Definition to_int64 (z : Z) : Z :=
  if wrap_uint64 z <? 2 ^ 63 then wrap_uint64 z else wrap_uint64 z - 2 ^ 64.

(** [ConstantInt::getZExtValue]: the low 64 bits of the constant (the
    whole constant for the usual widths up to 64 bits). *)
Definition getZExtValue (value : Z) : Z := wrap_uint64 value.

(** ** The local variables of [analyzeLoop] *)

Module Acc.

Record t : Type := mk {
  unique_preds : gset positive;
  unique_succs : gset positive;
  num_instr : Z;
  num_phis : Z;
  num_calls : Z;
  num_float_ops : Z;
  nums_branchs : Z;
  num_operands : Z;
  num_memory_ops : Z;
  num_uses : Z;
  num_blocks_in_lp : Z;
  ends_with_unreachable : bool;
  ends_with_return : bool;
  ends_with_cond_branch : bool;
  ends_with_branch : bool
}.

(** The declarations at the top of [analyzeLoop]. *)
Definition init : t :=
  {| unique_preds := ∅; unique_succs := ∅;
     num_instr := 0; num_phis := 0; num_calls := 0;
     num_float_ops := 0; nums_branchs := 0; num_operands := 0;
     num_memory_ops := 0; num_uses := 0; num_blocks_in_lp := 0;
     ends_with_unreachable := false; ends_with_return := false;
     ends_with_cond_branch := false; ends_with_branch := false |}.

End Acc.

(** One turn of [for (auto *U : I.users())]. *)
Definition visit_user (L : Loop) (num_uses : Z) (U : User) : Z :=
  match U with
  | UserInstruction parent =>
      if contains L parent then to_int (num_uses + 1) else num_uses
  | UserOther => num_uses
  end.

(** One turn of [for (Instruction &I : *BB)]. *)
Definition visit_instruction (L : Loop) (a : Acc.t) (I : Instruction) : Acc.t :=
  {| Acc.unique_preds := Acc.unique_preds a;
     Acc.unique_succs := Acc.unique_succs a;
     Acc.num_instr := to_int (Acc.num_instr a + 1);
     Acc.num_phis :=
       if isa_PHINode I then to_int (Acc.num_phis a + 1) else Acc.num_phis a;
     Acc.num_calls :=
       if isa_CallBase I then to_int (Acc.num_calls a + 1) else Acc.num_calls a;
     Acc.num_float_ops :=
       if isFloatArith I
       then to_int (Acc.num_float_ops a + 1) else Acc.num_float_ops a;
     Acc.nums_branchs :=
       if isa_BranchInst I
       then to_int (Acc.nums_branchs a + 1) else Acc.nums_branchs a;
     Acc.num_operands :=
       to_int (wrap_unsigned
                 (wrap_unsigned (Acc.num_operands a)
                  + Z.of_N (getNumOperands I)));
     Acc.num_memory_ops :=
       if isa_LoadInst I || isa_StoreInst I
       then to_int (Acc.num_memory_ops a + 1) else Acc.num_memory_ops a;
     Acc.num_uses := fold_left (visit_user L) (users I) (Acc.num_uses a);
     Acc.num_blocks_in_lp := Acc.num_blocks_in_lp a;
     Acc.ends_with_unreachable := Acc.ends_with_unreachable a;
     Acc.ends_with_return := Acc.ends_with_return a;
     Acc.ends_with_cond_branch :=
       if isa_BranchInst I
       then (if isConditionalBranch I then true else Acc.ends_with_cond_branch a)
       else Acc.ends_with_cond_branch a;
     Acc.ends_with_branch :=
       if isa_BranchInst I then true else Acc.ends_with_branch a |}.

(** [std::set::insert]. *)
Definition set_insert (s : gset positive) (BB : positive) : gset positive :=
  {[BB]} ∪ s.

(** One turn of [for (auto *BB : L->blocks())]. *)
Definition visit_block (L : Loop) (a : Acc.t) (BB : BasicBlock) : Acc.t :=
  let a1 :=
    {| Acc.unique_preds := Acc.unique_preds a;
       Acc.unique_succs := Acc.unique_succs a;
       Acc.num_instr := Acc.num_instr a;
       Acc.num_phis := Acc.num_phis a;
       Acc.num_calls := Acc.num_calls a;
       Acc.num_float_ops := Acc.num_float_ops a;
       Acc.nums_branchs := Acc.nums_branchs a;
       Acc.num_operands := Acc.num_operands a;
       Acc.num_memory_ops := Acc.num_memory_ops a;
       Acc.num_uses := Acc.num_uses a;
       Acc.num_blocks_in_lp := to_int (Acc.num_blocks_in_lp a + 1);
       Acc.ends_with_unreachable := Acc.ends_with_unreachable a;
       Acc.ends_with_return := Acc.ends_with_return a;
       Acc.ends_with_cond_branch := Acc.ends_with_cond_branch a;
       Acc.ends_with_branch := Acc.ends_with_branch a |} in
  let a2 := fold_left (visit_instruction L) (instructions BB) a1 in
  {| Acc.unique_preds :=
       fold_left set_insert (predecessors BB) (Acc.unique_preds a2);
     Acc.unique_succs :=
       fold_left set_insert (successors BB) (Acc.unique_succs a2);
     Acc.num_instr := Acc.num_instr a2;
     Acc.num_phis := Acc.num_phis a2;
     Acc.num_calls := Acc.num_calls a2;
     Acc.num_float_ops := Acc.num_float_ops a2;
     Acc.nums_branchs := Acc.nums_branchs a2;
     Acc.num_operands := Acc.num_operands a2;
     Acc.num_memory_ops := Acc.num_memory_ops a2;
     Acc.num_uses := Acc.num_uses a2;
     Acc.num_blocks_in_lp := Acc.num_blocks_in_lp a2;
     Acc.ends_with_unreachable :=
       match getTerminator BB with
       | Some TI =>
           if isa_UnreachableInst TI then true else Acc.ends_with_unreachable a2
       | None => Acc.ends_with_unreachable a2
       end;
     Acc.ends_with_return :=
       match getTerminator BB with
       | Some TI =>
           if isa_ReturnInst TI then true else Acc.ends_with_return a2
       | None => Acc.ends_with_return a2
       end;
     Acc.ends_with_cond_branch := Acc.ends_with_cond_branch a2;
     Acc.ends_with_branch := Acc.ends_with_branch a2 |}.

(** The whole block loop of [analyzeLoop]. *)
Definition scan_blocks (L : Loop) : Acc.t :=
  fold_left (visit_block L) (blocks L) Acc.init.

(** The [trip_count] computation of [analyzeLoop]: [getZExtValue() + 1]
    is taken in [uint64_t] and stored in an [int64_t]. *)
Definition compute_trip_count (SE : ScalarEvolution) (L : Loop) : Z :=
  match SE L with
  | Some (SCEVConstant value) => to_int64 (wrap_uint64 (getZExtValue value + 1))
  | Some _ => 0
  | None => 0
  end.

(** ** The values streamed to [OutFile] for one loop *)

Record FeatureRecord : Type := mkFeatureRecord {
  CodeID : Z;
  FunctionName : string;
  LoopHeader : string;
  num_instr : Z;
  num_phis : Z;
  num_calls : Z;
  num_preds : Z;
  num_succ : Z;
  ends_with_unreachable : bool;
  ends_with_return : bool;
  ends_with_cond_branch : bool;
  ends_with_branch : bool;
  num_float_ops : Z;
  nums_branchs : Z;
  num_operands : Z;
  num_memory_ops : Z;
  num_unique_predicates : Z;
  trip_count : Z;
  num_uses : Z;
  num_blocks_in_lp : Z;
  loop_depth : Z
}.

(** The values of the locals at the [OutFile << ...] statement. *)
Definition loop_features (L : Loop) (SE : ScalarEvolution)
    (FuncName : string) (CurrentCodeID : Z) : FeatureRecord :=
  let a := scan_blocks L in
  let num_unique_predicates := to_int (Z.of_nat (size (Acc.unique_preds a))) in
  let num_preds := num_unique_predicates in
  let num_succ := to_int (Z.of_nat (size (Acc.unique_succs a))) in
  let trip_count := compute_trip_count SE L in
  {| CodeID := CurrentCodeID;
     FunctionName := FuncName;
     LoopHeader := getName (getHeader L);
     num_instr := Acc.num_instr a;
     num_phis := Acc.num_phis a;
     num_calls := Acc.num_calls a;
     num_preds := num_preds;
     num_succ := num_succ;
     ends_with_unreachable := Acc.ends_with_unreachable a;
     ends_with_return := Acc.ends_with_return a;
     ends_with_cond_branch := Acc.ends_with_cond_branch a;
     ends_with_branch := Acc.ends_with_branch a;
     num_float_ops := Acc.num_float_ops a;
     nums_branchs := Acc.nums_branchs a;
     num_operands := Acc.num_operands a;
     num_memory_ops := Acc.num_memory_ops a;
     num_unique_predicates := num_unique_predicates;
     trip_count := trip_count;
     num_uses := Acc.num_uses a;
     num_blocks_in_lp := Acc.num_blocks_in_lp a;
     loop_depth := Z.of_N (getLoopDepth L) |}.

(** ** Text output *)

Open Scope string_scope.

(** The newline character written by the source. *)
Definition newline : string := String "010"%char EmptyString.

(** [operator<<] on an integer: its decimal text. *)
Definition string_of_Z (z : Z) : string := NilZero.string_of_int (Z.to_int z).

(** The operand [(flag ? 1 : 0)] of a stream insertion. *)
Definition flag (b : bool) : Z := if b then 1 else 0.

(** The header written by [initializeOutFile]. *)
Definition header_line : string :=
  "CodeID,Function,LoopHeader,num_instr,num_phis,num_calls,num_preds,num_succ," ++
  "ends_with_unreachable,ends_with_return,ends_with_cond_branch," ++
  "ends_with_branch,num_float_ops,nums_branchs,num_operands," ++
  "num_memory_ops,num_unique_predicates,trip_count,num_uses,num_blocks_in_lp,loop_depth" ++
  newline.

(** The operands of the [OutFile << ... << ...] statement of
    [analyzeLoop], in the order they are inserted, separators apart. *)
Definition row_columns (r : FeatureRecord) : list string :=
  [ string_of_Z (CodeID r);
    FunctionName r;
    LoopHeader r;
    string_of_Z (num_instr r);
    string_of_Z (num_phis r);
    string_of_Z (num_calls r);
    string_of_Z (num_preds r);
    string_of_Z (num_succ r);
    string_of_Z (flag (ends_with_unreachable r));
    string_of_Z (flag (ends_with_return r));
    string_of_Z (flag (ends_with_cond_branch r));
    string_of_Z (flag (ends_with_branch r));
    string_of_Z (num_float_ops r);
    string_of_Z (nums_branchs r);
    string_of_Z (num_operands r);
    string_of_Z (num_memory_ops r);
    string_of_Z (num_unique_predicates r);
    string_of_Z (trip_count r);
    string_of_Z (num_uses r);
    string_of_Z (num_blocks_in_lp r);
    string_of_Z (loop_depth r) ].

(** The same statement with its [","] and newline insertions: the items
    streamed one after the other. *)
Fixpoint with_separators (columns : list string) : list string :=
  match columns with
  | [] => [newline]
  | [c] => [c; newline]
  | c :: rest => c :: "," :: with_separators rest
  end.

Definition row_items (r : FeatureRecord) : list string :=
  with_separators (row_columns r).

(** ** Process and file state *)

(** The two files of the working directory and the statics of the pass.
    [loop_features_csv] and [code_id_txt] are [None] while the file does
    not exist; [code_id_txt] holds the number its text denotes.
    [csv_can_open] and [code_id_can_write] say whether opening the file
    for writing succeeds.  A file that was opened for appending is taken
    to be readable by the check stream of [initializeOutFile]. *)
Record State : Type := mkState {
  loop_features_csv : option string;
  csv_can_open : bool;
  code_id_txt : option N;
  code_id_can_write : bool;
  OutFile_is_open : bool;
  initialized : bool;
  CodeIDCounter : Z;
  CurrentCodeID : option Z
}.

Definition set_csv (v : option string) (st : State) : State :=
  mkState v (csv_can_open st) (code_id_txt st) (code_id_can_write st)
    (OutFile_is_open st) (initialized st) (CodeIDCounter st) (CurrentCodeID st).

Definition set_code_id_txt (v : option N) (st : State) : State :=
  mkState (loop_features_csv st) (csv_can_open st) v (code_id_can_write st)
    (OutFile_is_open st) (initialized st) (CodeIDCounter st) (CurrentCodeID st).

Definition set_OutFile_is_open (v : bool) (st : State) : State :=
  mkState (loop_features_csv st) (csv_can_open st) (code_id_txt st)
    (code_id_can_write st) v (initialized st) (CodeIDCounter st)
    (CurrentCodeID st).

Definition set_initialized (v : bool) (st : State) : State :=
  mkState (loop_features_csv st) (csv_can_open st) (code_id_txt st)
    (code_id_can_write st) (OutFile_is_open st) v (CodeIDCounter st)
    (CurrentCodeID st).

Definition set_CodeIDCounter (v : Z) (st : State) : State :=
  mkState (loop_features_csv st) (csv_can_open st) (code_id_txt st)
    (code_id_can_write st) (OutFile_is_open st) (initialized st) v
    (CurrentCodeID st).

Definition set_CurrentCodeID (v : option Z) (st : State) : State :=
  mkState (loop_features_csv st) (csv_can_open st) (code_id_txt st)
    (code_id_can_write st) (OutFile_is_open st) (initialized st)
    (CodeIDCounter st) v.

(** The bytes of the dataset file (none when it does not exist). *)
Definition csv_contents (st : State) : string :=
  default "" (loop_features_csv st).

(** [OutFile << item], flushed: appended to the file when the stream is
    open, dropped otherwise. *)
Definition put (st : State) (item : string) : State :=
  if OutFile_is_open st
  then set_csv (Some (csv_contents st ++ item)) st
  else st.

(** The statics of a process that has just started, over the files [st]
    left by earlier processes. *)
Definition new_process (st : State) : State :=
  mkState (loop_features_csv st) (csv_can_open st) (code_id_txt st)
    (code_id_can_write st) false false 0 None.

Definition initializeOutFile (st : State) : State :=
  if initialized st then st
  else if csv_can_open st then
    let st1 := set_OutFile_is_open true (set_csv (Some (csv_contents st)) st) in
    let writeHeader := bool_decide (csv_contents st1 = "") in
    let st2 := if writeHeader then put st1 header_line else st1 in
    set_initialized true st2
  else st.

(** [idFile >> CodeIDCounter] on the number [n] of the file: a number
    that does not fit is stored as the largest [unsigned]. *)
Definition extract_unsigned (n : N) : Z := Z.min (Z.of_N n) UINT_MAX.

Definition initializeCodeIDCounter (st : State) : State :=
  match code_id_txt st with
  | Some n => set_CodeIDCounter (extract_unsigned n) st
  | None => set_CodeIDCounter 0 st
  end.

Definition saveCodeIDCounter (st : State) : State :=
  if code_id_can_write st
  then set_code_id_txt (Some (Z.to_N (CodeIDCounter st))) st
  else st.

(** The constructor and the destructor of the pass object. *)
Definition construct (st : State) : State :=
  initializeCodeIDCounter (initializeOutFile st).

Definition destroy (st : State) : State := saveCodeIDCounter st.

(** ** The feature extraction engine *)

Fixpoint analyzeLoop (L : Loop) (SE : ScalarEvolution) (FuncName : string)
    (CurrentCodeID : Z) (st : State) : State :=
  let st1 :=
    fold_left put (row_items (loop_features L SE FuncName CurrentCodeID)) st in
  fold_left
    (fun st' SubLoop => analyzeLoop SubLoop SE FuncName CurrentCodeID st')
    (getSubLoops L) st1.

(** The body of [for (Function &F : M)]. *)
Definition visit_function (CurrentCodeID : Z) (st : State) (F : Function) : State :=
  if isDeclaration F then st
  else
    fold_left
      (fun st' L => analyzeLoop L (SE F) (fn_name F) CurrentCodeID st')
      (LI F) st.

(** The function-local static of [run]: initialised by the first call,
    which also post-increments [CodeIDCounter]. *)
Definition init_CurrentCodeID (st : State) : State :=
  match CurrentCodeID st with
  | Some _ => st
  | None =>
      set_CodeIDCounter (wrap_unsigned (CodeIDCounter st + 1))
        (set_CurrentCodeID (Some (CodeIDCounter st)) st)
  end.

Definition run (M : Module_) (st : State) : State :=
  let st1 := init_CurrentCodeID st in
  let id := default 0 (CurrentCodeID st1) in
  fold_left (visit_function id) M st1.

(** One process: the pass is constructed, run on each module in turn,
    and destroyed. *)
Definition process (Ms : list Module_) (files : State) : State :=
  destroy (fold_left (fun st M => run M st) Ms (construct (new_process files))).

(** ** Functional description of the block loop *)

Fixpoint count_if {A : Type} (p : A -> bool) (l : list A) : Z :=
  match l with
  | [] => 0
  | x :: l' => (if p x then 1 else 0) + count_if p l'
  end.

Fixpoint sum_operands (l : list Instruction) : Z :=
  match l with
  | [] => 0
  | i :: l' => Z.of_N (getNumOperands i) + sum_operands l'
  end.

Definition user_in_loop (L : Loop) (U : User) : bool :=
  match U with
  | UserInstruction parent => contains L parent
  | UserOther => false
  end.

Fixpoint sum_uses (L : Loop) (l : list Instruction) : Z :=
  match l with
  | [] => 0
  | i :: l' => count_if (user_in_loop L) (users i) + sum_uses L l'
  end.

Definition terminator_is (p : Instruction -> bool) (BB : BasicBlock) : bool :=
  match getTerminator BB with
  | Some TI => p TI
  | None => false
  end.

(** The instructions of the member blocks, in visiting order. *)
Definition loop_instructions (bs : list BasicBlock) : list Instruction :=
  flat_map instructions bs.

(** Well-formed IR: no instruction of a block but the last one is a
    terminator. *)
Definition terminators_last (BB : BasicBlock) : bool :=
  forallb (fun i => negb (isTerminator (getOpcode i)))
    (removelast (instructions BB)).

(** [LoopInfo]'s nesting: the blocks of a sub-loop are distinct, and each
    of them is a block of the parent loop. *)
Definition nested_blocks (L : Loop) : bool :=
  forallb
    (fun Sub =>
       bool_decide (NoDup (bb_ptr <$> blocks Sub))
       && forallb (fun BB => contains L (bb_ptr BB)) (blocks Sub))
    (getSubLoops L).

(** ** Functional description of the output *)

(** One dataset line: the columns joined by commas, then a newline. *)
Definition row_line (r : FeatureRecord) : string :=
  String.concat "," (row_columns r) ++ newline.

Definition rows_text (rs : list FeatureRecord) : string :=
  String.concat "" (map row_line rs).

(** The records of a loop tree, of a function and of a module, in the
    order of the traversal. *)
Definition loop_records (SE : ScalarEvolution) (FuncName : string)
    (CurrentCodeID : Z) (L : Loop) : list FeatureRecord :=
  map (fun L' => loop_features L' SE FuncName CurrentCodeID) (preorder L).

Definition function_records (CurrentCodeID : Z) (F : Function) : list FeatureRecord :=
  if isDeclaration F then []
  else flat_map (loop_records (SE F) (fn_name F) CurrentCodeID) (LI F).

Definition module_records (CurrentCodeID : Z) (M : Module_) : list FeatureRecord :=
  flat_map (function_records CurrentCodeID) M.

(** A function with a body and at least one top-level loop. *)
Definition has_loops (F : Function) : bool :=
  negb (isDeclaration F) && match LI F with [] => false | _ :: _ => true end.

(** The column names of the header, each with the text the row statement
    inserts at that position. *)
Definition named_columns (r : FeatureRecord) : list (string * string) :=
  [ ("CodeID", string_of_Z (CodeID r));
    ("Function", FunctionName r);
    ("LoopHeader", LoopHeader r);
    ("num_instr", string_of_Z (num_instr r));
    ("num_phis", string_of_Z (num_phis r));
    ("num_calls", string_of_Z (num_calls r));
    ("num_preds", string_of_Z (num_preds r));
    ("num_succ", string_of_Z (num_succ r));
    ("ends_with_unreachable", if ends_with_unreachable r then "1" else "0");
    ("ends_with_return", if ends_with_return r then "1" else "0");
    ("ends_with_cond_branch", if ends_with_cond_branch r then "1" else "0");
    ("ends_with_branch", if ends_with_branch r then "1" else "0");
    ("num_float_ops", string_of_Z (num_float_ops r));
    ("nums_branchs", string_of_Z (nums_branchs r));
    ("num_operands", string_of_Z (num_operands r));
    ("num_memory_ops", string_of_Z (num_memory_ops r));
    ("num_unique_predicates", string_of_Z (num_unique_predicates r));
    ("trip_count", string_of_Z (trip_count r));
    ("num_uses", string_of_Z (num_uses r));
    ("num_blocks_in_lp", string_of_Z (num_blocks_in_lp r));
    ("loop_depth", string_of_Z (loop_depth r)) ].

(** The column order of the specification's section 4.2: the three key
    columns, then the metrics in the order that section lists them. *)
Definition spec_section_4_2_columns (r : FeatureRecord) : list string :=
  [ string_of_Z (CodeID r);
    FunctionName r;
    LoopHeader r;
    string_of_Z (num_instr r);
    string_of_Z (num_phis r);
    string_of_Z (num_calls r);
    string_of_Z (num_memory_ops r);
    string_of_Z (nums_branchs r);
    string_of_Z (flag (ends_with_branch r));
    string_of_Z (flag (ends_with_cond_branch r));
    string_of_Z (flag (ends_with_return r));
    string_of_Z (flag (ends_with_unreachable r));
    string_of_Z (num_float_ops r);
    string_of_Z (num_operands r);
    string_of_Z (num_preds r);
    string_of_Z (num_succ r);
    string_of_Z (num_uses r);
    string_of_Z (trip_count r);
    string_of_Z (num_blocks_in_lp r);
    string_of_Z (loop_depth r) ].

Definition spec_section_4_2_line (r : FeatureRecord) : string :=
  String.concat "," (spec_section_4_2_columns r) ++ newline.

(** Splitting a line at a separator character. *)
Fixpoint split_at (sep : ascii) (s : string) : list string :=
  match s with
  | EmptyString => [EmptyString]
  | String c s' =>
      if Ascii.eqb c sep then EmptyString :: split_at sep s'
      else match split_at sep s' with
           | [] => [String c EmptyString]
           | w :: ws => String c w :: ws
           end
  end.

(** Whether the character [c] occurs in [s]. *)
Fixpoint string_has (c : ascii) (s : string) : bool :=
  match s with
  | EmptyString => false
  | String c' s' => Ascii.eqb c' c || string_has c s'
  end.

(** Appending the lines of the records [rs] through [OutFile]. *)
Definition emit (rs : list FeatureRecord) (st : State) : State :=
  match rs with
  | [] => st
  | _ :: _ => put st (rows_text rs)
  end.

(** The dataset writer opened by a new process over the files [files]. *)
Definition open_writer (files : State) : State :=
  initializeOutFile (new_process files).

(** The state of a process after its pass ran on the modules [Ms]. *)
Definition after_runs (Ms : list Module_) (files : State) : State :=
  fold_left (fun st M => run M st) Ms (construct (new_process files)).

(** ** Sample inputs *)

Module Sample.

(** A single-block loop: a load feeding a store, and a conditional branch
    back to the header. *)
Definition load1 : Instruction := mkInstruction Load 1 [UserInstruction 1%positive].
Definition store1 : Instruction := mkInstruction Store 2 [].
Definition condbr : Instruction := mkInstruction (Br true) 3 [].
Definition body : BasicBlock :=
  mkBasicBlock 1 "for.body" [load1; store1; condbr]
    [2%positive; 1%positive] [1%positive; 3%positive].
Definition single : Loop := mkLoop body [body] 1 [].

(** A loop nest two levels deep. *)
Definition phi1 : Instruction := mkInstruction PHI 4 [UserInstruction 11%positive].
Definition fadd1 : Instruction := mkInstruction FAdd 2 [UserInstruction 20%positive; UserOther].
Definition jump : Instruction := mkInstruction (Br false) 1 [].
Definition outer_header : BasicBlock :=
  mkBasicBlock 10 "outer.header" [phi1; condbr]
    [9%positive; 12%positive] [11%positive; 13%positive].
Definition inner_header : BasicBlock :=
  mkBasicBlock 11 "inner.header" [load1; fadd1; store1; condbr]
    [10%positive; 11%positive] [11%positive; 12%positive].
Definition outer_latch : BasicBlock :=
  mkBasicBlock 12 "outer.latch" [jump] [11%positive] [10%positive].
Definition inner : Loop := mkLoop inner_header [inner_header] 2 [].
Definition outer : Loop :=
  mkLoop outer_header [outer_header; inner_header; outer_latch] 1 [inner].

(** A loop given a member block that ends in a return and one that ends
    in an unreachable. *)
Definition ret1 : Instruction := mkInstruction Ret 1 [].
Definition unreachable1 : Instruction := mkInstruction Unreachable 0 [].
Definition spin_header : BasicBlock :=
  mkBasicBlock 20 "spin" [condbr]
    [19%positive; 23%positive] [21%positive; 23%positive].
Definition early_exit : BasicBlock :=
  mkBasicBlock 21 "early.exit" [ret1] [20%positive] [].
Definition trap : BasicBlock :=
  mkBasicBlock 22 "trap" [unreachable1] [23%positive] [].
Definition spin_latch : BasicBlock :=
  mkBasicBlock 23 "spin.latch" [condbr]
    [20%positive] [20%positive; 22%positive].
Definition spin : Loop :=
  mkLoop spin_header [spin_header; spin_latch; early_exit; trap] 1 [].

(** Bound oracles. *)
Definition SE_const (c : Z) : ScalarEvolution := fun _ => Some (SCEVConstant c).
Definition SE_unknown : ScalarEvolution := fun _ => Some SCEVCouldNotCompute.
Definition SE_symbolic : ScalarEvolution := fun _ => Some SCEVSymbolic.

(** Functions and a module. *)
Definition main : Function := mkFunction "main" false [single; outer] (SE_const 9).
Definition printf : Function := mkFunction "printf" true [] SE_unknown.
Definition leaf : Function := mkFunction "leaf" false [] SE_unknown.
Definition unit1 : Module_ := [printf; main; leaf].

(** Files of a first run, and of a run whose counter file holds the
    largest [unsigned]. *)
Definition no_files : State := mkState None true None true false false 0 None.
Definition last_id_files : State :=
  mkState None true (Some 4294967295%N) true false false 0 None.

End Sample.

(** The range of an [int], and the locals all in that range. *)
Definition in_int (z : Z) : Prop := - 2 ^ 31 <= z <= INT_MAX.

Definition Acc_in_int (a : Acc.t) : Prop :=
  in_int (Acc.num_instr a) /\ in_int (Acc.num_phis a) /\
  in_int (Acc.num_calls a) /\ in_int (Acc.num_float_ops a) /\
  in_int (Acc.nums_branchs a) /\ in_int (Acc.num_operands a) /\
  in_int (Acc.num_memory_ops a) /\ in_int (Acc.num_uses a) /\
  in_int (Acc.num_blocks_in_lp a).

(** ** The plugin entry point *)

(** The pipeline-parsing callback registered by [llvmGetPassPluginInfo]:
    for the name ["loop-features"] it builds a temporary pass object and
    hands it to the host's [addPass], then answers [true]; for any other
    name it answers [false].  [copies] is the number of intermediate
    copies the host destroys while storing the pass (copying runs no
    constructor of the pass); the temporary itself is destroyed at the end
    of the statement, so [S copies] destructors run. *)
Definition pipelineParsingCallback (Name : string) (copies : nat)
    (st : State) : bool * State :=
  if String.eqb Name "loop-features"
  then (true, Nat.iter (S copies) destroy (construct st))
  else (false, st).

(** A process driven through the plugin: the pipeline element [Name] is
    parsed, and when a pass was added it is run on the modules and
    destroyed with the pass manager. *)
Definition plugin_process (Name : string) (copies : nat)
    (Ms : list Module_) (files : State) : State :=
  let parsed := pipelineParsingCallback Name copies (new_process files) in
  if fst parsed
  then destroy (fold_left (fun st M => run M st) Ms (snd parsed))
  else snd parsed.

(** ** Further descriptions of the input and of the output *)

(** All users of the instructions [l]. *)
Definition all_users (l : list Instruction) : list User :=
  flat_map users l.

(** The loops analysed in a module: those of the functions with a body,
    each tree parent first. *)
Definition loops_of_function (F : Function) : list Loop :=
  if isDeclaration F then [] else flat_map preorder (LI F).

Definition loops_of_module (M : Module_) : list Loop :=
  flat_map loops_of_function M.

(** Occurrences of the character [c] in [s]. *)
Fixpoint count_char (c : ascii) (s : string) : nat :=
  match s with
  | EmptyString => 0%nat
  | String c' s' => ((if Ascii.eqb c' c then 1 else 0) + count_char c s')%nat
  end.

(** The character of [newline]. *)
Definition newline_char : ascii := "010"%char.

(** Neither name of the record holds the character [c]. *)
Definition names_without (c : ascii) (r : FeatureRecord) : bool :=
  negb (string_has c (FunctionName r)) && negb (string_has c (LoopHeader r)).

(** ** Basic facts *)

Section LoopInduction.

Variable P : Loop -> Prop.
Hypothesis step : forall h bs d subs,
    Forall P subs -> P (mkLoop h bs d subs).

Fixpoint Loop_ind (L : Loop) : P L :=
  match L with
  | mkLoop h bs d subs =>
      step h bs d subs
        ((fix all (l : list Loop) : Forall P l :=
            match l with
            | [] => List.Forall_nil P
            | Sub :: l' => @List.Forall_cons _ P Sub l' (Loop_ind Sub) (all l')
            end) subs)
  end.

End LoopInduction.

Lemma count_if_nonneg {A : Type} (p : A -> bool) (l : list A) :
  0 <= count_if p l.
Proof. induction l as [|x l IH]; simpl; [lia | destruct (p x); lia]. Qed.

Lemma count_if_app {A : Type} (p : A -> bool) (l1 l2 : list A) :
  count_if p (l1 ++ l2)%list = count_if p l1 + count_if p l2.
Proof. induction l1 as [|x l1 IH]; simpl; [lia | rewrite IH; lia]. Qed.

Lemma count_if_existsb {A : Type} (p : A -> bool) (l : list A) :
  existsb p l = true <-> 1 <= count_if p l.
Proof.
  induction l as [|x l IH]; simpl.
  - split; [discriminate | lia].
  - pose proof (count_if_nonneg p l) as Hnn.
    destruct (p x); simpl; [split; [lia | reflexivity] |].
    rewrite IH. lia.
Qed.

Lemma sum_operands_app (l1 l2 : list Instruction) :
  sum_operands (l1 ++ l2)%list = sum_operands l1 + sum_operands l2.
Proof. induction l1 as [|x l1 IH]; simpl; [lia | rewrite IH; lia]. Qed.

Lemma sum_uses_app (L : Loop) (l1 l2 : list Instruction) :
  sum_uses L (l1 ++ l2)%list = sum_uses L l1 + sum_uses L l2.
Proof. induction l1 as [|x l1 IH]; simpl; [lia | rewrite IH; lia]. Qed.

(** *** Arithmetic of [int] *)

Lemma to_int_in_int (z : Z) : in_int (to_int z).
Proof.
  unfold in_int, to_int, INT_MAX.
  pose proof (Z.mod_pos_bound (z + 2 ^ 31) (2 ^ 32)). lia.
Qed.

Lemma to_int_small (z : Z) : in_int z -> to_int z = z.
Proof.
  unfold in_int, to_int, INT_MAX. intros Hz. rewrite Z.mod_small; lia.
Qed.

Lemma to_int_add (z k : Z) : to_int (to_int z + k) = to_int (z + k).
Proof.
  unfold to_int. f_equal.
  replace ((z + 2 ^ 31) mod 2 ^ 32 - 2 ^ 31 + k + 2 ^ 31)
    with ((z + 2 ^ 31) mod 2 ^ 32 + k) by lia.
  rewrite Z.add_mod_idemp_l by lia. f_equal. lia.
Qed.

Lemma to_int_operands (a n : Z) :
  to_int (wrap_unsigned (wrap_unsigned a + n)) = to_int (a + n).
Proof.
  unfold to_int, wrap_unsigned. f_equal.
  rewrite Z.add_mod_idemp_l by lia.
  rewrite <- Z.add_assoc, Z.add_mod_idemp_l by lia.
  f_equal. lia.
Qed.

Lemma to_int_bump (b : bool) (x c : Z) :
  to_int ((if b then to_int (x + 1) else x) + c)
  = to_int (x + ((if b then 1 else 0) + c)).
Proof. destruct b; rewrite ?to_int_add; f_equal; lia. Qed.

Lemma in_int_bump (b : bool) (x : Z) :
  in_int x -> in_int (if b then to_int (x + 1) else x).
Proof. destruct b; [intros _; apply to_int_in_int | done]. Qed.

(** *** The loops of [analyzeLoop] as functions of the lists they visit *)

Lemma fold_visit_user (L : Loop) (us : list User) (n : Z) :
  in_int n ->
  fold_left (visit_user L) us n = to_int (n + count_if (user_in_loop L) us).
Proof.
  revert n; induction us as [|U us IH]; intros n Hn; cbn [fold_left count_if].
  - rewrite Z.add_0_r. symmetry. by apply to_int_small.
  - assert (Hstep : visit_user L n U
                    = if user_in_loop L U then to_int (n + 1) else n)
      by (by destruct U).
    rewrite Hstep, IH by (by apply in_int_bump).
    apply to_int_bump.
Qed.

Lemma fold_set_insert (l : list positive) (s : gset positive) :
  fold_left set_insert l s = s ∪ list_to_set l.
Proof.
  revert s; induction l as [|x l IH]; intros s; simpl.
  - set_solver.
  - rewrite IH. unfold set_insert. set_solver.
Qed.

Ltac unfold_locals :=
  cbn [Acc.unique_preds Acc.unique_succs Acc.num_instr Acc.num_phis
       Acc.num_calls Acc.num_float_ops Acc.nums_branchs Acc.num_operands
       Acc.num_memory_ops Acc.num_uses Acc.num_blocks_in_lp
       Acc.ends_with_unreachable Acc.ends_with_return
       Acc.ends_with_cond_branch Acc.ends_with_branch].

Lemma visit_instruction_in_int (L : Loop) (a : Acc.t) (i : Instruction) :
  Acc_in_int a -> Acc_in_int (visit_instruction L a i).
Proof.
  intros (H1 & H2 & H3 & H4 & H5 & H6 & H7 & H8 & H9).
  unfold Acc_in_int, visit_instruction. unfold_locals.
  rewrite fold_visit_user by assumption.
  split_and!; try apply to_int_in_int; try (by apply in_int_bump);
    assumption.
Qed.

(** The instruction loop, as a function of the instruction list. *)
Lemma fold_visit_instruction (L : Loop) (l : list Instruction) (a : Acc.t) :
  Acc_in_int a ->
  fold_left (visit_instruction L) l a =
  {| Acc.unique_preds := Acc.unique_preds a;
     Acc.unique_succs := Acc.unique_succs a;
     Acc.num_instr := to_int (Acc.num_instr a + Z.of_nat (length l));
     Acc.num_phis := to_int (Acc.num_phis a + count_if isa_PHINode l);
     Acc.num_calls := to_int (Acc.num_calls a + count_if isa_CallBase l);
     Acc.num_float_ops :=
       to_int (Acc.num_float_ops a + count_if isFloatArith l);
     Acc.nums_branchs :=
       to_int (Acc.nums_branchs a + count_if isa_BranchInst l);
     Acc.num_operands := to_int (Acc.num_operands a + sum_operands l);
     Acc.num_memory_ops :=
       to_int (Acc.num_memory_ops a
               + count_if (fun i => isa_LoadInst i || isa_StoreInst i) l);
     Acc.num_uses := to_int (Acc.num_uses a + sum_uses L l);
     Acc.num_blocks_in_lp := Acc.num_blocks_in_lp a;
     Acc.ends_with_unreachable := Acc.ends_with_unreachable a;
     Acc.ends_with_return := Acc.ends_with_return a;
     Acc.ends_with_cond_branch :=
       Acc.ends_with_cond_branch a || existsb isConditionalBranch l;
     Acc.ends_with_branch :=
       Acc.ends_with_branch a || existsb isa_BranchInst l |}.
Proof.
  revert a; induction l as [|i l IH]; intros a Ha.
  - destruct Ha as (H1 & H2 & H3 & H4 & H5 & H6 & H7 & H8 & H9).
    destruct a; cbn in *. rewrite !Z.add_0_r, !orb_false_r.
    by rewrite !to_int_small.
  - cbn [fold_left]. rewrite IH by (by apply visit_instruction_in_int).
    destruct Ha as (H1 & H2 & H3 & H4 & H5 & H6 & H7 & H8 & H9).
    unfold visit_instruction. unfold_locals.
    cbn [length count_if sum_operands sum_uses existsb].
    rewrite fold_visit_user by assumption.
    rewrite to_int_operands, !to_int_bump, !to_int_add.
    f_equal; try (f_equal; lia).
    + unfold isConditionalBranch, isa_BranchInst.
      destruct (getOpcode i) as [| | | | | | | | | |[|]| | | | | | | | |];
        simpl; try reflexivity; by rewrite ?orb_true_r.
    + unfold isa_BranchInst.
      destruct (getOpcode i); simpl; try reflexivity; by rewrite ?orb_true_r.
Qed.

Lemma visit_block_in_int (L : Loop) (a : Acc.t) (BB : BasicBlock) :
  Acc_in_int a -> Acc_in_int (visit_block L a BB).
Proof.
  intros (H1 & H2 & H3 & H4 & H5 & H6 & H7 & H8 & H9).
  unfold visit_block.
  rewrite fold_visit_instruction
    by (unfold Acc_in_int; unfold_locals;
        split_and!; try assumption; apply to_int_in_int).
  unfold Acc_in_int. unfold_locals. split_and!; apply to_int_in_int.
Qed.

(** The block loop, as a function of the block list. *)
Lemma fold_visit_block (L : Loop) (bs : list BasicBlock) (a : Acc.t) :
  Acc_in_int a ->
  fold_left (visit_block L) bs a =
  {| Acc.unique_preds :=
       Acc.unique_preds a ∪ list_to_set (flat_map predecessors bs);
     Acc.unique_succs :=
       Acc.unique_succs a ∪ list_to_set (flat_map successors bs);
     Acc.num_instr :=
       to_int (Acc.num_instr a + Z.of_nat (length (loop_instructions bs)));
     Acc.num_phis :=
       to_int (Acc.num_phis a + count_if isa_PHINode (loop_instructions bs));
     Acc.num_calls :=
       to_int (Acc.num_calls a + count_if isa_CallBase (loop_instructions bs));
     Acc.num_float_ops :=
       to_int (Acc.num_float_ops a
               + count_if isFloatArith (loop_instructions bs));
     Acc.nums_branchs :=
       to_int (Acc.nums_branchs a
               + count_if isa_BranchInst (loop_instructions bs));
     Acc.num_operands :=
       to_int (Acc.num_operands a + sum_operands (loop_instructions bs));
     Acc.num_memory_ops :=
       to_int (Acc.num_memory_ops a
               + count_if (fun i => isa_LoadInst i || isa_StoreInst i)
                   (loop_instructions bs));
     Acc.num_uses :=
       to_int (Acc.num_uses a + sum_uses L (loop_instructions bs));
     Acc.num_blocks_in_lp :=
       to_int (Acc.num_blocks_in_lp a + Z.of_nat (length bs));
     Acc.ends_with_unreachable :=
       Acc.ends_with_unreachable a
       || existsb (terminator_is isa_UnreachableInst) bs;
     Acc.ends_with_return :=
       Acc.ends_with_return a || existsb (terminator_is isa_ReturnInst) bs;
     Acc.ends_with_cond_branch :=
       Acc.ends_with_cond_branch a
       || existsb isConditionalBranch (loop_instructions bs);
     Acc.ends_with_branch :=
       Acc.ends_with_branch a
       || existsb isa_BranchInst (loop_instructions bs) |}.
Proof.
  unfold loop_instructions.
  revert a; induction bs as [|BB bs IH]; intros a Ha.
  - destruct Ha as (H1 & H2 & H3 & H4 & H5 & H6 & H7 & H8 & H9).
    destruct a; cbn in *. rewrite !Z.add_0_r, !orb_false_r.
    rewrite !to_int_small by assumption. f_equal; set_solver.
  - cbn [fold_left]. rewrite IH by (by apply visit_block_in_int).
    destruct Ha as (H1 & H2 & H3 & H4 & H5 & H6 & H7 & H8 & H9).
    unfold visit_block.
    rewrite fold_visit_instruction
      by (unfold Acc_in_int; unfold_locals;
          split_and!; try assumption; apply to_int_in_int).
    unfold_locals. cbn [flat_map length existsb].
    rewrite !fold_set_insert, !list_to_set_app_L, !existsb_app,
      !count_if_app, sum_operands_app, sum_uses_app, length_app.
    rewrite !to_int_add.
    unfold terminator_is.
    f_equal; try (f_equal; lia); try (by rewrite !(assoc_L _));
      try (destruct (getTerminator BB) as [TI|];
           [destruct (isa_UnreachableInst TI), (isa_ReturnInst TI) |];
           simpl; by rewrite ?orb_true_r, ?orb_false_r).
    all: by rewrite <- ?orb_assoc.
Qed.

(** ** Strings and the output stream *)

Lemma append_assoc (a b c : string) : (a ++ b) ++ c = a ++ (b ++ c).
Proof.
  induction a as [|ch a IH]; [reflexivity |].
  change (String ch ((a ++ b) ++ c) = String ch (a ++ (b ++ c))).
  by rewrite IH.
Qed.

Lemma append_nil_r (a : string) : a ++ "" = a.
Proof.
  induction a as [|ch a IH]; [reflexivity |].
  change (String ch (a ++ "") = String ch a). by rewrite IH.
Qed.

Lemma concat_empty_cons (x : string) (l : list string) :
  String.concat "" (x :: l) = x ++ String.concat "" l.
Proof. destruct l; simpl; [by rewrite append_nil_r | reflexivity]. Qed.

Lemma concat_empty_app (l1 l2 : list string) :
  String.concat "" (l1 ++ l2)%list = String.concat "" l1 ++ String.concat "" l2.
Proof.
  induction l1 as [|x l1 IH]; [reflexivity |].
  rewrite <- app_comm_cons, !concat_empty_cons, IH. by rewrite append_assoc.
Qed.

Lemma rows_text_app (rs1 rs2 : list FeatureRecord) :
  rows_text (rs1 ++ rs2)%list = rows_text rs1 ++ rows_text rs2.
Proof. unfold rows_text. by rewrite map_app, concat_empty_app. Qed.

Lemma with_separators_text (columns : list string) :
  String.concat "" (with_separators columns)
  = String.concat "," columns ++ newline.
Proof.
  induction columns as [|c [|c' rest] IH]; try reflexivity.
  change (with_separators (c :: c' :: rest))
    with (c :: "," :: with_separators (c' :: rest)).
  rewrite !concat_empty_cons, IH.
  change (String.concat "," (c :: c' :: rest))
    with (c ++ "," ++ String.concat "," (c' :: rest)).
  by rewrite !append_assoc.
Qed.

Lemma put_put (st : State) (a b : string) :
  put (put st a) b = put st (a ++ b).
Proof.
  unfold put. destruct st as [csv co idf iw [|] ini cnt cur]; simpl; [|reflexivity].
  unfold set_csv, csv_contents; simpl. by rewrite append_assoc.
Qed.

Lemma fold_put (items : list string) (x : string) (st : State) :
  fold_left put (x :: items) st = put st (String.concat "" (x :: items)).
Proof.
  revert x st; induction items as [|y items IH]; intros x st.
  - simpl. reflexivity.
  - change (fold_left put (x :: y :: items) st)
      with (fold_left put (y :: items) (put st x)).
    rewrite IH, put_put. reflexivity.
Qed.

(** The row statement appends one line. *)
Lemma put_row (r : FeatureRecord) (st : State) :
  fold_left put (row_items r) st = put st (row_line r).
Proof.
  unfold row_items, row_line.
  rewrite <- with_separators_text.
  unfold row_columns.
  cbn [with_separators]. apply fold_put.
Qed.

Lemma emit_app (rs1 rs2 : list FeatureRecord) (st : State) :
  emit (rs1 ++ rs2)%list st = emit rs2 (emit rs1 st).
Proof.
  destruct rs1 as [|r1 rs1]; [reflexivity |].
  destruct rs2 as [|r2 rs2]; [by rewrite app_nil_r |].
  unfold emit at 2 3. rewrite put_put, <- rows_text_app. reflexivity.
Qed.

Lemma fold_emit {A : Type} (f : A -> list FeatureRecord)
    (g : State -> A -> State) (l : list A) (st : State) :
  (forall st' x, g st' x = emit (f x) st') ->
  fold_left g l st = emit (flat_map f l) st.
Proof.
  intros Hg. revert st; induction l as [|x l IH]; intros st; [reflexivity |].
  cbn [fold_left flat_map]. by rewrite Hg, IH, emit_app.
Qed.

Lemma analyzeLoop_emit (L : Loop) (SE : ScalarEvolution) (FuncName : string)
    (id : Z) (st : State) :
  analyzeLoop L SE FuncName id st = emit (loop_records SE FuncName id L) st.
Proof.
  revert st. induction L as [h bs d subs IH] using Loop_ind. intros st.
  cbn [analyzeLoop getSubLoops]. rewrite put_row.
  unfold loop_records. cbn [preorder getSubLoops map].
  change (loop_features (mkLoop h bs d subs) SE FuncName id
          :: map (fun L' => loop_features L' SE FuncName id)
               (flat_map preorder subs))
    with ([loop_features (mkLoop h bs d subs) SE FuncName id]
          ++ map (fun L' => loop_features L' SE FuncName id)
               (flat_map preorder subs))%list.
  rewrite emit_app.
  assert (Hhead : forall r, put st (row_line r) = emit [r] st).
  { intros r. unfold emit, rows_text. reflexivity. }
  rewrite Hhead. generalize (emit [loop_features (mkLoop h bs d subs) SE FuncName id] st).
  clear Hhead st. induction IH as [|Sub subs HSub _ IHsubs]; intros st.
  - reflexivity.
  - cbn [fold_left flat_map]. rewrite HSub, IHsubs, map_app, emit_app.
    reflexivity.
Qed.

Lemma visit_function_emit (id : Z) (st : State) (F : Function) :
  visit_function id st F = emit (function_records id F) st.
Proof.
  unfold visit_function, function_records.
  destruct (isDeclaration F); [reflexivity |].
  apply fold_emit. intros st' L. apply analyzeLoop_emit.
Qed.

Lemma fold_visit_function (id : Z) (M : Module_) (st : State) :
  fold_left (visit_function id) M st = emit (module_records id M) st.
Proof. apply fold_emit. intros st' F. apply visit_function_emit. Qed.

Lemma emit_contents (rs : list FeatureRecord) (st : State) :
  OutFile_is_open st = true ->
  csv_contents (emit rs st) = csv_contents st ++ rows_text rs.
Proof.
  intros Hopen. destruct rs as [|r rs].
  - simpl. unfold rows_text. simpl. by rewrite append_nil_r.
  - unfold emit, put. rewrite Hopen. reflexivity.
Qed.

Lemma emit_statics (rs : list FeatureRecord) (st : State) :
  OutFile_is_open (emit rs st) = OutFile_is_open st /\
  initialized (emit rs st) = initialized st /\
  CodeIDCounter (emit rs st) = CodeIDCounter st /\
  CurrentCodeID (emit rs st) = CurrentCodeID st /\
  code_id_txt (emit rs st) = code_id_txt st /\
  code_id_can_write (emit rs st) = code_id_can_write st /\
  csv_can_open (emit rs st) = csv_can_open st.
Proof.
  destruct rs as [|r rs]; [tauto |].
  unfold emit, put. destruct (OutFile_is_open st) eqn:E; simpl; tauto.
Qed.

(** ** The record of one loop *)

Lemma Acc_init_in_int : Acc_in_int Acc.init.
Proof. unfold Acc_in_int, in_int, INT_MAX. cbn. lia. Qed.

(** The locals after the block loop, as functions of the member blocks. *)
Lemma scan_blocks_spec (L : Loop) :
  let l := loop_instructions (blocks L) in
  scan_blocks L =
  {| Acc.unique_preds := list_to_set (flat_map predecessors (blocks L));
     Acc.unique_succs := list_to_set (flat_map successors (blocks L));
     Acc.num_instr := to_int (Z.of_nat (length l));
     Acc.num_phis := to_int (count_if isa_PHINode l);
     Acc.num_calls := to_int (count_if isa_CallBase l);
     Acc.num_float_ops := to_int (count_if isFloatArith l);
     Acc.nums_branchs := to_int (count_if isa_BranchInst l);
     Acc.num_operands := to_int (sum_operands l);
     Acc.num_memory_ops :=
       to_int (count_if (fun i => isa_LoadInst i || isa_StoreInst i) l);
     Acc.num_uses := to_int (sum_uses L l);
     Acc.num_blocks_in_lp := to_int (Z.of_nat (length (blocks L)));
     Acc.ends_with_unreachable :=
       existsb (terminator_is isa_UnreachableInst) (blocks L);
     Acc.ends_with_return :=
       existsb (terminator_is isa_ReturnInst) (blocks L);
     Acc.ends_with_cond_branch := existsb isConditionalBranch l;
     Acc.ends_with_branch := existsb isa_BranchInst l |}.
Proof.
  intros l. unfold scan_blocks.
  rewrite fold_visit_block by apply Acc_init_in_int.
  unfold Acc.init; unfold_locals.
  fold l. rewrite !orb_false_l, !Z.add_0_l, !(left_id_L ∅ (∪)). reflexivity.
Qed.

Lemma existsb_elem_of {A : Type} (p : A -> bool) (l : list A) :
  existsb p l = true <-> exists x, x ∈ l /\ p x = true.
Proof.
  rewrite existsb_exists. split; intros [x [Hx Hp]]; exists x; split;
    try assumption; by apply list_elem_of_In.
Qed.

Lemma elem_of_loop_instructions (i : Instruction) (bs : list BasicBlock) :
  i ∈ loop_instructions bs <-> exists BB, BB ∈ bs /\ i ∈ instructions BB.
Proof.
  unfold loop_instructions. split.
  - intros H%list_elem_of_In%in_flat_map. destruct H as [BB [HBB Hi]].
    exists BB. split; by apply list_elem_of_In.
  - intros [BB [HBB Hi]]. apply list_elem_of_In, in_flat_map.
    exists BB. split; by apply list_elem_of_In.
Qed.

Lemma terminator_is_spec (p : Instruction -> bool) (BB : BasicBlock) :
  terminator_is p BB = true <->
  exists TI, getTerminator BB = Some TI /\ p TI = true.
Proof.
  unfold terminator_is. destruct (getTerminator BB) as [TI|].
  - split; [intros Hp; by exists TI | intros [TI' [[= <-] Hp]]; exact Hp].
  - split; [discriminate | intros [TI' [[=] _]]].
Qed.

(** In well-formed IR a branch instruction of a block is its terminator. *)
Lemma terminator_is_last (l : list Instruction) (i : Instruction) :
  forallb (fun i' => negb (isTerminator (getOpcode i'))) (removelast l) = true ->
  i ∈ l -> isTerminator (getOpcode i) = true -> last l = Some i.
Proof.
  intros Hwf Hin Hterm. induction l as [|x [|y l] IH].
  - by apply elem_of_nil in Hin.
  - apply list_elem_of_singleton in Hin as ->. reflexivity.
  - change (removelast (x :: y :: l)) with (x :: removelast (y :: l)) in Hwf.
    cbn [forallb] in Hwf. apply andb_true_iff in Hwf as [Hx Hrest].
    apply elem_of_cons in Hin as [-> | Hin].
    + rewrite Hterm in Hx. discriminate.
    + change (last (x :: y :: l)) with (last (y :: l)). by apply IH.
Qed.

Lemma branch_is_terminator (BB : BasicBlock) (i : Instruction) :
  terminators_last BB = true -> i ∈ instructions BB ->
  isa_BranchInst i = true -> getTerminator BB = Some i.
Proof.
  intros Hwf Hin Hbr.
  assert (Hterm : isTerminator (getOpcode i) = true).
  { unfold isa_BranchInst in Hbr. by destruct (getOpcode i). }
  unfold getTerminator.
  rewrite (terminator_is_last (instructions BB) i Hwf Hin Hterm).
  by rewrite Hterm.
Qed.

Lemma terminator_in_block (BB : BasicBlock) (TI : Instruction) :
  getTerminator BB = Some TI -> TI ∈ instructions BB.
Proof.
  unfold getTerminator. destruct (last (instructions BB)) as [i|] eqn:Hlast;
    [|discriminate].
  destruct (isTerminator (getOpcode i)); [|discriminate].
  intros [= <-]. by apply last_Some_elem_of.
Qed.

(** C4: [ends_with_return] is set exactly when some member block of the
    loop, whichever it is, has a return as its terminator, and
    [ends_with_unreachable] exactly when some member block has an
    unreachable as its terminator. *)
Theorem C4_return_unreachable_over_all_blocks
    (L : Loop) (SE : ScalarEvolution) (FuncName : string) (id : Z) :
  (ends_with_return (loop_features L SE FuncName id) = true <->
   exists BB TI, BB ∈ blocks L /\ getTerminator BB = Some TI /\
                 getOpcode TI = Ret) /\
  (ends_with_unreachable (loop_features L SE FuncName id) = true <->
   exists BB TI, BB ∈ blocks L /\ getTerminator BB = Some TI /\
                 getOpcode TI = Unreachable).
Proof.
  unfold loop_features; cbn [ends_with_return ends_with_unreachable].
  rewrite scan_blocks_spec;
    cbn [Acc.ends_with_return Acc.ends_with_unreachable].
  rewrite !existsb_elem_of. split; split.
  - intros [BB [HBB Ht]]. apply terminator_is_spec in Ht as [TI [Ht Hp]].
    exists BB, TI. repeat split; try assumption.
    unfold isa_ReturnInst in Hp. by destruct (getOpcode TI).
  - intros [BB [TI [HBB [Ht Hop]]]]. exists BB. split; [assumption |].
    apply terminator_is_spec. exists TI. split; [assumption |].
    unfold isa_ReturnInst. by rewrite Hop.
  - intros [BB [HBB Ht]]. apply terminator_is_spec in Ht as [TI [Ht Hp]].
    exists BB, TI. repeat split; try assumption.
    unfold isa_UnreachableInst in Hp. by destruct (getOpcode TI).
  - intros [BB [TI [HBB [Ht Hop]]]]. exists BB. split; [assumption |].
    apply terminator_is_spec. exists TI. split; [assumption |].
    unfold isa_UnreachableInst. by rewrite Hop.
Qed.

(** C8: on well-formed IR (a terminator is the last instruction of its
    block), [ends_with_branch] is set exactly when the terminator of some
    member block is a branch, conditional or not, and
    [ends_with_cond_branch] exactly when some branch instruction of a
    member block is conditional. *)
Theorem C8_branch_flags
    (L : Loop) (SE : ScalarEvolution) (FuncName : string) (id : Z)
    (Hwf : forallb terminators_last (blocks L) = true) :
  (ends_with_branch (loop_features L SE FuncName id) = true <->
   exists BB TI c, BB ∈ blocks L /\ getTerminator BB = Some TI /\
                   getOpcode TI = Br c) /\
  (ends_with_cond_branch (loop_features L SE FuncName id) = true <->
   exists BB i, BB ∈ blocks L /\ i ∈ instructions BB /\
                getOpcode i = Br true).
Proof.
  unfold loop_features; cbn [ends_with_branch ends_with_cond_branch].
  rewrite scan_blocks_spec;
    cbn [Acc.ends_with_branch Acc.ends_with_cond_branch].
  rewrite !existsb_elem_of. split; split.
  - intros [i [Hi Hbr]].
    apply elem_of_loop_instructions in Hi as [BB [HBB Hi]].
    rewrite forallb_forall in Hwf.
    assert (HBBwf : terminators_last BB = true)
      by (apply Hwf; by apply list_elem_of_In).
    pose proof (branch_is_terminator BB i HBBwf Hi Hbr) as Ht.
    unfold isa_BranchInst in Hbr.
    destruct (getOpcode i) eqn:Hop; try discriminate.
    by exists BB, i, isConditional.
  - intros [BB [TI [c [HBB [Ht Hop]]]]]. exists TI. split.
    + apply elem_of_loop_instructions. exists BB. split; [assumption |].
      by apply terminator_in_block.
    + unfold isa_BranchInst. by rewrite Hop.
  - intros [i [Hi Hc]].
    apply elem_of_loop_instructions in Hi as [BB [HBB Hi]].
    exists BB, i. repeat split; try assumption.
    unfold isConditionalBranch in Hc.
    destruct (getOpcode i) as [| | | | | | | | | |[|]| | | | | | | | |];
      try discriminate; reflexivity.
  - intros [BB [i [HBB [Hi Hop]]]]. exists i. split.
    + apply elem_of_loop_instructions. by exists BB.
    + unfold isConditionalBranch. by rewrite Hop.
Qed.

Lemma count_if_le_length {A : Type} (p : A -> bool) (l : list A) :
  count_if p l <= Z.of_nat (length l).
Proof.
  induction l as [|x l IH]; cbn [count_if length]; [lia |].
  destruct (p x); lia.
Qed.

Lemma to_int_count {A : Type} (p : A -> bool) (l : list A) :
  Z.of_nat (length l) <= INT_MAX -> to_int (count_if p l) = count_if p l.
Proof.
  intros Hfit. apply to_int_small. unfold in_int.
  pose proof (count_if_nonneg p l). pose proof (count_if_le_length p l).
  lia.
Qed.

(** C10: in the record of every loop, [ends_with_cond_branch] written
    as 1 forces [ends_with_branch] written as 1, and, the instructions of
    the loop being countable in an [int], [ends_with_branch] is written
    as 1 exactly when [nums_branchs] is at least 1. *)
Theorem C10_flags_consistent_with_branch_count
    (L : Loop) (SE : ScalarEvolution) (FuncName : string) (id : Z) :
  let r := loop_features L SE FuncName id in
  (Z.of_nat (length (loop_instructions (blocks L))) <= INT_MAX ->
   (flag (ends_with_branch r) = 1 <-> 1 <= nums_branchs r)) /\
  (flag (ends_with_cond_branch r) = 1 -> flag (ends_with_branch r) = 1).
Proof.
  unfold loop_features;
    cbn [ends_with_branch ends_with_cond_branch nums_branchs].
  rewrite scan_blocks_spec;
    cbn [Acc.ends_with_branch Acc.ends_with_cond_branch Acc.nums_branchs].
  set (l := loop_instructions (blocks L)) in *. split.
  - intros Hfit. rewrite (to_int_count isa_BranchInst l Hfit).
    rewrite <- count_if_existsb.
    destruct (existsb isa_BranchInst l); simpl; split; intros; done.
  - destruct (existsb isConditionalBranch l) eqn:Hc; simpl; [|discriminate].
    intros _. apply existsb_elem_of in Hc as [i [Hi Hc]].
    assert (Hb : existsb isa_BranchInst l = true).
    { apply existsb_elem_of. exists i. split; [assumption |].
      unfold isConditionalBranch in Hc. unfold isa_BranchInst.
      by destruct (getOpcode i). }
    by rewrite Hb.
Qed.

Lemma C8_branch_flags_witness :
  forallb terminators_last (blocks Sample.outer) = true /\
  ends_with_branch
    (loop_features Sample.outer (Sample.SE_const 9) "main" 0) = true /\
  ends_with_cond_branch
    (loop_features Sample.outer (Sample.SE_const 9) "main" 0) = true.
Proof.
  split; [reflexivity |].
  destruct (C8_branch_flags Sample.outer (Sample.SE_const 9) "main" 0 eq_refl)
    as [Hbranch Hcond].
  split.
  - apply Hbranch.
    exists Sample.outer_latch, Sample.jump, false. repeat split.
    apply list_elem_of_In. simpl. tauto.
  - apply Hcond.
    exists Sample.inner_header, Sample.condbr. repeat split;
      apply list_elem_of_In; simpl; tauto.
Defined.

Lemma size_list_to_set_dedup (l : list positive) :
  size (list_to_set l : gset positive) = length (remove_dups l).
Proof.
  rewrite <- (size_list_to_set (C := gset positive) (remove_dups l))
    by apply NoDup_remove_dups.
  f_equal. apply set_eq. intros x.
  by rewrite !elem_of_list_to_set, elem_of_remove_dups.
Qed.

(** C7: [num_preds] is the number of distinct blocks among the
    predecessors of all member blocks, inside the loop or not, and is
    non-negative (that number fitting an [int]); [num_succ] is the same
    over the successors; and [num_unique_predicates] always repeats
    [num_preds]. *)
Theorem C7_distinct_predecessors_and_successors
    (L : Loop) (SE : ScalarEvolution) (FuncName : string) (id : Z) :
  let r := loop_features L SE FuncName id in
  let all_preds := flat_map predecessors (blocks L) in
  let all_succs := flat_map successors (blocks L) in
  (Z.of_nat (length (remove_dups all_preds)) <= INT_MAX ->
   num_preds r = Z.of_nat (length (remove_dups all_preds)) /\
   0 <= num_preds r) /\
  (Z.of_nat (length (remove_dups all_succs)) <= INT_MAX ->
   num_succ r = Z.of_nat (length (remove_dups all_succs)) /\
   0 <= num_succ r) /\
  num_preds r = num_unique_predicates r.
Proof.
  unfold loop_features; cbn [num_preds num_succ num_unique_predicates].
  rewrite scan_blocks_spec; cbn [Acc.unique_preds Acc.unique_succs].
  rewrite !size_list_to_set_dedup.
  split; [| split; [| reflexivity]]; intros Hfit;
    rewrite !to_int_small by (unfold in_int; lia); lia.
Qed.

(** ** The trip count *)

Lemma trip_count_in_range (c : Z) :
  0 <= c < 2 ^ 63 - 1 ->
  to_int64 (wrap_uint64 (getZExtValue c + 1)) = c + 1.
Proof.
  intros Hc. unfold to_int64, getZExtValue, wrap_uint64.
  rewrite (Z.mod_small c) by lia.
  rewrite !(Z.mod_small (c + 1)) by lia.
  destruct (Z.ltb_spec (c + 1) (2 ^ 63)); lia.
Qed.

Lemma analyzeLoop_first_row (L : Loop) (SE : ScalarEvolution)
    (FuncName : string) (id : Z) (st : State) :
  OutFile_is_open st = true ->
  csv_contents (analyzeLoop L SE FuncName id st)
  = csv_contents st ++ row_line (loop_features L SE FuncName id)
    ++ rows_text (flat_map (loop_records SE FuncName id) (getSubLoops L)).
Proof.
  intros Hopen. rewrite analyzeLoop_emit, emit_contents by assumption.
  f_equal. unfold loop_records at 1. destruct L as [h bs d subs].
  cbn [preorder getSubLoops map]. unfold rows_text.
  cbn [map]. rewrite concat_empty_cons. f_equal. f_equal.
  induction subs as [|Sub subs IH]; [reflexivity |].
  cbn [flat_map]. rewrite !map_app, IH. reflexivity.
Qed.

(** C1, as the code has it: a constant backedge-taken count [c] below
    2^63 - 1 gives [trip_count = c + 1], which is then positive; a null,
    uncomputable or symbolic bound gives [trip_count = 0]; and whatever
    the oracle answers, the line of the loop is appended to the open
    dataset. *)
Theorem C1_trip_count
    (L : Loop) (SE : ScalarEvolution) (FuncName : string) (id : Z) :
  let r := loop_features L SE FuncName id in
  (forall c, SE L = Some (SCEVConstant c) -> 0 <= c < 2 ^ 63 - 1 ->
             trip_count r = c + 1 /\ 0 < trip_count r) /\
  ((forall c, SE L <> Some (SCEVConstant c)) -> trip_count r = 0) /\
  (forall st, OutFile_is_open st = true ->
     exists rest,
       csv_contents (analyzeLoop L SE FuncName id st)
       = csv_contents st ++ row_line r ++ rest).
Proof.
  cbn zeta. unfold loop_features at 1 2 3; cbn [trip_count].
  unfold compute_trip_count. repeat split.
  - rewrite H. by apply trip_count_in_range.
  - rewrite H. rewrite trip_count_in_range by assumption. lia.
  - intros Hnot. destruct (SE L) as [[c| |]|]; try reflexivity.
    by destruct (Hnot c).
  - intros st Hopen. eexists. by apply analyzeLoop_first_row.
Qed.

Lemma C1_trip_count_witness :
  trip_count (loop_features Sample.single (Sample.SE_const 9) "main" 0) = 10 /\
  trip_count (loop_features Sample.single Sample.SE_symbolic "main" 0) = 0.
Proof.
  split.
  - apply (proj1 (C1_trip_count Sample.single (Sample.SE_const 9) "main" 0) 9);
      [reflexivity | lia].
  - apply (proj1 (proj2 (C1_trip_count Sample.single Sample.SE_symbolic "main" 0))).
    intros c. discriminate.
Defined.

(** C1 fails as stated: for the constant backedge-taken count 2^63 - 1
    the recorded trip count is negative, and is not [c + 1]. *)
Lemma C1_counterexample :
  let c := 2 ^ 63 - 1 in
  let r := loop_features Sample.single (Sample.SE_const c) "main" 0 in
  Sample.SE_const c Sample.single = Some (SCEVConstant c) /\
  0 <= c /\
  trip_count r = - 2 ^ 63 /\
  trip_count r <> c + 1 /\
  trip_count r < 0.
Proof. cbn zeta. repeat split; try reflexivity; by vm_compute. Qed.

(** ** The traversal of a loop tree *)

Lemma num_blocks_in_lp_spec (L : Loop) (SE : ScalarEvolution)
    (FuncName : string) (id : Z) :
  Z.of_nat (length (blocks L)) <= INT_MAX ->
  num_blocks_in_lp (loop_features L SE FuncName id)
  = Z.of_nat (length (blocks L)).
Proof.
  intros Hfit. unfold loop_features; cbn [num_blocks_in_lp].
  rewrite scan_blocks_spec; cbn [Acc.num_blocks_in_lp].
  apply to_int_small. unfold in_int. lia.
Qed.

Lemma nested_blocks_length (P Sub : Loop) :
  nested_blocks P = true -> Sub ∈ getSubLoops P ->
  (length (blocks Sub) <= length (blocks P))%nat.
Proof.
  unfold nested_blocks. rewrite forallb_forall. intros Hnest HSub.
  apply list_elem_of_In, Hnest, andb_true_iff in HSub as [Hnodup Hincl].
  apply bool_decide_eq_true in Hnodup. rewrite forallb_forall in Hincl.
  rewrite <- (length_fmap bb_ptr (blocks Sub)),
    <- (length_fmap bb_ptr (blocks P)).
  apply submseteq_length, NoDup_submseteq; [assumption |].
  intros p Hp. apply list_elem_of_fmap in Hp as [BB [-> HBB]].
  apply list_elem_of_In, Hincl in HBB. unfold contains in HBB.
  by apply bool_decide_eq_true in HBB.
Qed.

Lemma nested_blocks_descendant (L P : Loop) :
  forallb nested_blocks (preorder L) = true -> P ∈ preorder L ->
  (length (blocks P) <= length (blocks L))%nat.
Proof.
  revert P. induction L as [h bs d subs IH] using Loop_ind. intros P Hnest HP.
  cbn [preorder getSubLoops] in Hnest, HP.
  cbn [forallb] in Hnest. apply andb_true_iff in Hnest as [Hroot Hrest].
  apply elem_of_cons in HP as [-> | HP]; [lia |].
  apply list_elem_of_In, in_flat_map in HP as [Sub [HSub HP]].
  rewrite forallb_forall in Hrest. rewrite Forall_forall in IH.
  assert (HnestSub : forallb nested_blocks (preorder Sub) = true).
  { apply forallb_forall. intros Q HQ. apply Hrest, in_flat_map.
    by exists Sub. }
  apply list_elem_of_In in HSub, HP.
  pose proof (IH Sub HSub P HnestSub HP).
  pose proof (nested_blocks_length (mkLoop h bs d subs) Sub Hroot HSub).
  cbn [blocks] in *. lia.
Qed.

(** C5: with the dataset open, [analyzeLoop] appends the line of the
    given loop and then the lines of the trees of its direct sub-loops,
    in their order, so that the dataset gains exactly one line per loop
    of the tree, a parent before its sub-loops.  With [LoopInfo]'s
    nesting and a block count that fits an [int], each record counts the
    member blocks of its own loop, and the count of an outer loop is at
    least the count of each of its sub-loops. *)
Theorem C5_one_record_per_loop
    (L : Loop) (SE : ScalarEvolution) (FuncName : string) (id : Z) :
  let record := fun L' => loop_features L' SE FuncName id in
  (forall st, OutFile_is_open st = true ->
     csv_contents (analyzeLoop L SE FuncName id st)
     = csv_contents st ++ rows_text (map record (preorder L)) /\
     csv_contents (analyzeLoop L SE FuncName id st)
     = csv_contents st ++ row_line (record L)
       ++ rows_text (flat_map (fun Sub => map record (preorder Sub))
                       (getSubLoops L))) /\
  (forallb nested_blocks (preorder L) = true ->
   Z.of_nat (length (blocks L)) <= INT_MAX ->
   (forall L', L' ∈ preorder L ->
      num_blocks_in_lp (record L') = Z.of_nat (length (blocks L'))) /\
   (forall P Sub, P ∈ preorder L -> Sub ∈ getSubLoops P ->
      num_blocks_in_lp (record Sub) <= num_blocks_in_lp (record P))).
Proof.
  cbn zeta. split.
  - intros st Hopen. split.
    + rewrite analyzeLoop_emit. by apply emit_contents.
    + by apply analyzeLoop_first_row.
  - intros Hnest Hfit.
    assert (Hfits : forall P, P ∈ preorder L ->
                              Z.of_nat (length (blocks P)) <= INT_MAX).
    { intros P HP. pose proof (nested_blocks_descendant L P Hnest HP). lia. }
    split.
    + intros L' HL'. apply num_blocks_in_lp_spec. by apply Hfits.
    + intros P Sub HP HSub.
      assert (HnestP : nested_blocks P = true).
      { rewrite forallb_forall in Hnest. by apply Hnest, list_elem_of_In. }
      pose proof (nested_blocks_length P Sub HnestP HSub) as Hlen.
      pose proof (Hfits P HP).
      rewrite !num_blocks_in_lp_spec by lia. lia.
Qed.

Lemma C5_one_record_per_loop_witness :
  let st := open_writer Sample.no_files in
  let record := fun L' => loop_features L' (Sample.SE_const 9) "main" 0 in
  OutFile_is_open st = true /\
  forallb nested_blocks (preorder Sample.outer) = true /\
  Z.of_nat (length (blocks Sample.outer)) <= INT_MAX /\
  csv_contents (analyzeLoop Sample.outer (Sample.SE_const 9) "main" 0 st)
  = csv_contents st
    ++ rows_text [record Sample.outer; record Sample.inner] /\
  num_blocks_in_lp (record Sample.inner)
  <= num_blocks_in_lp (record Sample.outer).
Proof.
  cbn zeta. split; [reflexivity |]. split; [reflexivity |].
  assert (Hfit : Z.of_nat (length (blocks Sample.outer)) <= INT_MAX)
    by (by vm_compute).
  split; [exact Hfit |].
  destruct (C5_one_record_per_loop Sample.outer (Sample.SE_const 9) "main" 0)
    as [Hrows Hcounts].
  split.
  - exact (proj1 (Hrows (open_writer Sample.no_files) eq_refl)).
  - apply (proj2 (Hcounts eq_refl Hfit) Sample.outer Sample.inner);
      apply list_elem_of_In; simpl; tauto.
Defined.

(** ** The module pass *)

Lemma visit_function_skip (id : Z) (st : State) (F : Function) :
  has_loops F = false -> visit_function id st F = st.
Proof.
  unfold has_loops, visit_function.
  destruct (isDeclaration F); [reflexivity |].
  destruct (LI F); [reflexivity | discriminate].
Qed.

Lemma fold_visit_function_filter (id : Z) (M : Module_) (st : State) :
  fold_left (visit_function id) M st
  = fold_left (visit_function id) (List.filter has_loops M) st.
Proof.
  revert st; induction M as [|F M IH]; intros st; [reflexivity |].
  cbn [fold_left List.filter]. destruct (has_loops F) eqn:HF.
  - cbn [fold_left]. apply IH.
  - rewrite (visit_function_skip id st F HF). apply IH.
Qed.

(** C9: a function that is a declaration, or whose loop forest is empty,
    leaves the dataset as it is, and running the pass on a module is
    running it on its functions that have a body and at least one
    top-level loop. *)
Theorem C9_only_functions_with_loops (M : Module_) (st : State) (id : Z) :
  (forall F, isDeclaration F = true \/ LI F = [] ->
             visit_function id st F = st /\ function_records id F = []) /\
  run M st = run (List.filter has_loops M) st.
Proof.
  split.
  - intros F HF. split.
    + apply visit_function_skip. unfold has_loops.
      destruct HF as [-> | ->]; [reflexivity | apply andb_false_r].
    + unfold function_records.
      destruct HF as [-> | ->]; [reflexivity |].
      by destruct (isDeclaration F).
  - unfold run. apply fold_visit_function_filter.
Qed.

Lemma C9_only_functions_with_loops_witness :
  let st := open_writer Sample.no_files in
  visit_function 0 st Sample.printf = st /\
  visit_function 0 st Sample.leaf = st /\
  run Sample.unit1 st = run [Sample.main] st.
Proof.
  cbn zeta.
  destruct (C9_only_functions_with_loops Sample.unit1
              (open_writer Sample.no_files) 0) as [Hskip Hrun].
  split; [apply (Hskip Sample.printf); left; reflexivity |].
  split; [apply (Hskip Sample.leaf); right; reflexivity |].
  exact Hrun.
Defined.

(** ** The dataset writer *)

Lemma header_line_nonempty : header_line <> "".
Proof. discriminate. Qed.

Lemma open_writer_populated (files : State) :
  csv_contents files <> "" ->
  csv_contents (open_writer files) = csv_contents files.
Proof.
  intros Hne. unfold open_writer, initializeOutFile, new_process.
  cbn [initialized csv_can_open]. destruct (csv_can_open files); [|reflexivity].
  unfold csv_contents, set_OutFile_is_open, set_csv, set_initialized, put in *.
  cbn [loop_features_csv OutFile_is_open] in *.
  destruct (loop_features_csv files) as [text|]; cbn [default] in *;
    [|done].
  by rewrite bool_decide_eq_false_2.
Qed.

Lemma open_writer_empty (files : State) :
  csv_can_open files = true -> csv_contents files = "" ->
  csv_contents (open_writer files) = header_line.
Proof.
  intros Hopen Hempty. unfold open_writer, initializeOutFile, new_process.
  cbn [initialized csv_can_open]. rewrite Hopen.
  unfold csv_contents, set_OutFile_is_open, set_csv, set_initialized, put in *.
  cbn [loop_features_csv OutFile_is_open default] in *.
  rewrite Hempty. reflexivity.
Qed.

Lemma iter_open_writer_populated (n : nat) (files : State) :
  csv_contents files <> "" ->
  csv_contents (Nat.iter n open_writer files) = csv_contents files.
Proof.
  intros Hne. induction n as [|n IH]; [reflexivity |].
  change (Nat.iter (S n) open_writer files)
    with (open_writer (Nat.iter n open_writer files)).
  rewrite open_writer_populated; rewrite IH; done.
Qed.

(** C6: a writer opened on an empty (or missing) dataset file writes the
    header once; a writer opened on a file that has content writes
    nothing, however many processes open it; so after any number of
    openings the file that started empty holds one header.  Inside a
    process a second initialisation does nothing.  The header has 21
    columns. *)
Theorem C6_header_written_once (files : State) :
  (csv_can_open files = true -> csv_contents files = "" ->
   csv_contents (open_writer files) = header_line) /\
  (csv_contents files <> "" ->
   forall n, csv_contents (Nat.iter n open_writer files) = csv_contents files) /\
  (csv_can_open files = true -> csv_contents files = "" ->
   forall n, csv_contents (Nat.iter (S n) open_writer files) = header_line) /\
  (forall st, initializeOutFile (initializeOutFile st) = initializeOutFile st) /\
  length (split_at "," header_line) = 21%nat.
Proof.
  split; [apply open_writer_empty |].
  split; [intros Hne n; by apply iter_open_writer_populated |].
  split; [| split; [| reflexivity]].
  - intros Hopen Hempty n. induction n as [|n IH].
    + by apply open_writer_empty.
    + change (Nat.iter (S (S n)) open_writer files)
        with (open_writer (Nat.iter (S n) open_writer files)).
      rewrite open_writer_populated; rewrite IH;
        [reflexivity | apply header_line_nonempty].
  - intros st.
    assert (Hcases : initialized (initializeOutFile st) = true
                     \/ initializeOutFile st = st).
    { unfold initializeOutFile. destruct (initialized st) eqn:Hinit;
        [by left |].
      destruct (csv_can_open st); [left; reflexivity | by right]. }
    destruct Hcases as [Hdone | Hsame].
    + unfold initializeOutFile at 1. by rewrite Hdone.
    + by rewrite !Hsame.
Qed.

Lemma C6_header_written_once_witness :
  csv_contents (open_writer Sample.no_files) = header_line /\
  csv_contents (Nat.iter 3 open_writer Sample.no_files) = header_line /\
  csv_contents (Nat.iter 2 open_writer (process [Sample.unit1] Sample.no_files))
  = csv_contents (process [Sample.unit1] Sample.no_files).
Proof.
  destruct (C6_header_written_once Sample.no_files) as [Hfirst [_ [Hmany _]]].
  destruct (C6_header_written_once (process [Sample.unit1] Sample.no_files))
    as [_ [Hkeep _]].
  split; [apply Hfirst; reflexivity |].
  split; [apply (Hmany eq_refl eq_refl 2%nat) |].
  apply Hkeep. by vm_compute.
Defined.

(** ** The run identifier *)

Lemma run_emit (M : Module_) (st : State) :
  run M st
  = emit (module_records (default 0 (CurrentCodeID (init_CurrentCodeID st))) M)
      (init_CurrentCodeID st).
Proof. unfold run. apply fold_visit_function. Qed.

Lemma init_CurrentCodeID_done (st : State) (id : Z) :
  CurrentCodeID st = Some id -> init_CurrentCodeID st = st.
Proof. intros Hid. unfold init_CurrentCodeID. by rewrite Hid. Qed.

Lemma fold_run_emit (Ms : list Module_) (st : State) (id : Z) :
  CurrentCodeID st = Some id ->
  fold_left (fun st' M => run M st') Ms st
  = emit (flat_map (module_records id) Ms) st.
Proof.
  revert st; induction Ms as [|M Ms IH]; intros st Hid; [reflexivity |].
  cbn [fold_left flat_map].
  rewrite run_emit, (init_CurrentCodeID_done st id Hid), Hid. cbn [default from_option Datatypes.id].
  rewrite IH, emit_app; [reflexivity |].
  destruct (emit_statics (module_records id M) st) as (_ & _ & _ & -> & _).
  exact Hid.
Qed.

Lemma construct_new_process (files : State) :
  let st0 := construct (new_process files) in
  CurrentCodeID st0 = None /\
  code_id_can_write st0 = code_id_can_write files /\
  CodeIDCounter st0
  = match code_id_txt files with
    | Some n => extract_unsigned n
    | None => 0
    end.
Proof.
  cbn zeta. unfold construct, initializeCodeIDCounter, initializeOutFile,
    new_process.
  cbn [initialized csv_can_open].
  destruct (csv_can_open files); [destruct (bool_decide _) |];
    (destruct (code_id_txt files) as [n|] eqn:E; cbn; rewrite ?E; cbn;
     repeat split; reflexivity).
Qed.

Lemma module_records_CodeID (id : Z) (M : Module_) (r : FeatureRecord) :
  In r (module_records id M) -> CodeID r = id.
Proof.
  unfold module_records, function_records. rewrite in_flat_map.
  intros [F [_ Hr]]. destruct (isDeclaration F); [contradiction |].
  apply in_flat_map in Hr as [L [_ Hr]]. unfold loop_records in Hr.
  apply in_map_iff in Hr as [L' [<- _]]. reflexivity.
Qed.

(** C2, as the code has it: the run identifier is the counter loaded by
    the constructor; the first [run] post-increments the 32-bit counter
    once (modulo 2^32) and later runs leave it alone; every record of the
    process carries the run identifier; the destructor saves the counter,
    which is the loaded value plus one whenever the loaded value is below
    the largest [unsigned]. *)
Theorem C2_run_identifier (files : State) (M : Module_) (Ms : list Module_) :
  let st0 := construct (new_process files) in
  let loaded := CodeIDCounter st0 in
  let st1 := after_runs (M :: Ms) files in
  let records := flat_map (module_records loaded) (M :: Ms) in
  loaded = match code_id_txt files with
           | Some n => extract_unsigned n
           | None => 0
           end /\
  CurrentCodeID st1 = Some loaded /\
  CodeIDCounter st1 = wrap_unsigned (loaded + 1) /\
  (loaded < UINT_MAX -> CodeIDCounter st1 = loaded + 1) /\
  (OutFile_is_open st0 = true ->
   csv_contents st1 = csv_contents st0 ++ rows_text records) /\
  Forall (fun r => CodeID r = loaded) records /\
  (code_id_can_write files = true ->
   code_id_txt (process (M :: Ms) files)
   = Some (Z.to_N (wrap_unsigned (loaded + 1)))).
Proof.
  cbn zeta.
  destruct (construct_new_process files) as (Hnone & Hwrite & Hload).
  set (st0 := construct (new_process files)) in *.
  set (loaded := CodeIDCounter st0) in *.
  assert (Hrange : 0 <= loaded <= UINT_MAX).
  { rewrite Hload. unfold extract_unsigned, UINT_MAX.
    destruct (code_id_txt files); lia. }
  assert (Hinit : CurrentCodeID (init_CurrentCodeID st0) = Some loaded)
    by (unfold init_CurrentCodeID; by rewrite Hnone).
  assert (Hcnt : CodeIDCounter (init_CurrentCodeID st0)
                 = wrap_unsigned (loaded + 1))
    by (unfold init_CurrentCodeID; by rewrite Hnone).
  assert (Hw : code_id_can_write (init_CurrentCodeID st0)
               = code_id_can_write st0)
    by (unfold init_CurrentCodeID; by rewrite Hnone).
  assert (Hopen0 : OutFile_is_open (init_CurrentCodeID st0)
                   = OutFile_is_open st0)
    by (unfold init_CurrentCodeID; by rewrite Hnone).
  assert (Hcsv0 : csv_contents (init_CurrentCodeID st0) = csv_contents st0)
    by (unfold init_CurrentCodeID; by rewrite Hnone).
  assert (Hst1 : after_runs (M :: Ms) files
                 = emit (flat_map (module_records loaded) (M :: Ms))
                     (init_CurrentCodeID st0)).
  { unfold after_runs. fold st0. cbn [fold_left flat_map].
    rewrite run_emit, Hinit. cbn [default from_option Datatypes.id].
    rewrite (fold_run_emit Ms _ loaded), emit_app; [reflexivity |].
    destruct (emit_statics (module_records loaded M) (init_CurrentCodeID st0))
      as (_ & _ & _ & -> & _).
    exact Hinit. }
  destruct (emit_statics (flat_map (module_records loaded) (M :: Ms))
              (init_CurrentCodeID st0))
    as (_ & _ & Hc & Hid & _ & Hcw & _).
  split_and!.
  - exact Hload.
  - by rewrite Hst1, Hid.
  - by rewrite Hst1, Hc.
  - intros Hlt. rewrite Hst1, Hc, Hcnt. unfold wrap_unsigned, UINT_MAX in *.
    apply Z.mod_small. lia.
  - intros Hopen. rewrite Hst1, emit_contents by (by rewrite Hopen0).
    by rewrite Hcsv0.
  - apply Forall_forall. intros r Hr. apply list_elem_of_In in Hr.
    apply in_flat_map in Hr as [M' [_ Hr]].
    by apply module_records_CodeID in Hr.
  - intros Hcan. unfold process, destroy, saveCodeIDCounter.
    fold (after_runs (M :: Ms) files). rewrite Hst1, Hcw, Hw, Hwrite, Hcan.
    cbn [code_id_txt set_code_id_txt]. by rewrite Hc, Hcnt.
Qed.

Lemma C2_run_identifier_witness :
  CurrentCodeID (after_runs [Sample.unit1; Sample.unit1] Sample.no_files)
  = Some 0 /\
  CodeIDCounter (after_runs [Sample.unit1; Sample.unit1] Sample.no_files) = 1 /\
  code_id_txt (process [Sample.unit1; Sample.unit1] Sample.no_files)
  = Some 1%N.
Proof.
  destruct (C2_run_identifier Sample.no_files Sample.unit1 [Sample.unit1])
    as (_ & Hid & _ & Hcnt & _ & _ & Hsave).
  split; [exact Hid |]. split; [apply Hcnt; by vm_compute |].
  exact (Hsave eq_refl).
Defined.

(** C2 fails as stated: when the counter file holds 4294967295, the run
    identifier is 4294967295 and the saved counter is 0, not the loaded
    value plus one. *)
Lemma C2_counterexample :
  let files := Sample.last_id_files in
  let loaded := CodeIDCounter (construct (new_process files)) in
  loaded = 4294967295 /\
  CurrentCodeID (after_runs [Sample.unit1] files) = Some loaded /\
  CodeIDCounter (after_runs [Sample.unit1] files) = 0 /\
  code_id_txt (process [Sample.unit1] files) = Some 0%N /\
  code_id_txt (process [Sample.unit1] files) <> Some (Z.to_N (loaded + 1)).
Proof. cbn zeta. repeat split; try by vm_compute. Qed.

(** ** The line of one record *)

Lemma row_columns_named (r : FeatureRecord) :
  row_columns r = map snd (named_columns r).
Proof.
  unfold row_columns, named_columns. cbn [map snd].
  by destruct (ends_with_unreachable r), (ends_with_return r),
    (ends_with_cond_branch r), (ends_with_branch r).
Qed.

Lemma split_at_absent (sep : ascii) (s : string) :
  string_has sep s = false -> split_at sep s = [s].
Proof.
  induction s as [|c s IH]; [reflexivity |].
  cbn [string_has split_at]. intros [Hc Hs]%orb_false_iff.
  by rewrite Hc, (IH Hs).
Qed.

Lemma split_at_append (sep : ascii) (a b : string) :
  string_has sep a = false ->
  split_at sep (a ++ String sep b) = a :: split_at sep b.
Proof.
  induction a as [|c a IH].
  - intros _. change ("" ++ String sep b) with (String sep b).
    cbn [split_at]. by rewrite Ascii.eqb_refl.
  - cbn [string_has]. intros [Hc Ha]%orb_false_iff.
    change (String c a ++ String sep b) with (String c (a ++ String sep b)).
    cbn [split_at]. by rewrite Hc, (IH Ha).
Qed.

Lemma split_at_concat (sep : ascii) (c : string) (columns : list string) :
  forallb (fun w => negb (string_has sep w)) (c :: columns) = true ->
  split_at sep (String.concat (String sep "") (c :: columns)) = c :: columns.
Proof.
  revert c; induction columns as [|c' columns IH]; intros c Hall;
    cbn [forallb] in Hall; apply andb_true_iff in Hall as [Hc Hrest];
    apply negb_true_iff in Hc.
  - by apply split_at_absent.
  - change (String.concat (String sep "") (c :: c' :: columns))
      with (c ++ String sep (String.concat (String sep "") (c' :: columns))).
    rewrite (split_at_append sep c _ Hc). f_equal. by apply IH.
Qed.

Lemma string_of_uint_no_comma (d : Decimal.uint) :
  string_has "," (NilEmpty.string_of_uint d) = false.
Proof. induction d; cbn [NilEmpty.string_of_uint string_has]; done. Qed.

Lemma string_of_Z_no_comma (z : Z) : string_has "," (string_of_Z z) = false.
Proof.
  unfold string_of_Z, NilZero.string_of_int, NilZero.string_of_uint.
  destruct (Z.to_int z) as [d|d]; destruct d;
    cbn [string_has]; try reflexivity;
    try (rewrite string_of_uint_no_comma; reflexivity);
    cbn [NilEmpty.string_of_uint string_has];
    by rewrite string_of_uint_no_comma.
Qed.

(** C3, as the code has it: the row statement appends one line, the 21
    column texts joined by commas and closed by a newline, in the column
    order of the header ([CodeID], [Function], [LoopHeader], then the 18
    metrics from [num_instr] to [loop_depth] as the header names them);
    the four flags are written as 1 or 0; when the two names hold no
    comma, splitting the joined columns at the commas gives the 21
    columns back. *)
Theorem C3_row_follows_header (r : FeatureRecord) (st : State) :
  (OutFile_is_open st = true ->
   csv_contents (fold_left put (row_items r) st)
   = csv_contents st
     ++ String.concat "," (map snd (named_columns r)) ++ newline) /\
  header_line = String.concat "," (map fst (named_columns r)) ++ newline /\
  length (named_columns r) = 21%nat /\
  (OutFile_is_open st = false -> fold_left put (row_items r) st = st) /\
  (string_has "," (FunctionName r) = false ->
   string_has "," (LoopHeader r) = false ->
   split_at "," (String.concat "," (map snd (named_columns r)))
   = map snd (named_columns r)).
Proof.
  split; [| split; [reflexivity | split; [reflexivity | split]]].
  - intros Hopen. rewrite put_row. unfold put. rewrite Hopen.
    unfold row_line. by rewrite row_columns_named.
  - intros Hclosed. rewrite put_row. unfold put. by rewrite Hclosed.
  - intros Hfn Hhdr. rewrite <- row_columns_named. unfold row_columns.
    apply (split_at_concat ","). cbn [forallb].
    rewrite Hfn, Hhdr, !string_of_Z_no_comma. reflexivity.
Qed.

Lemma C3_row_follows_header_witness :
  csv_contents
    (fold_left put
       (row_items (loop_features Sample.single (Sample.SE_const 9) "main" 0))
       (open_writer Sample.no_files))
  = header_line
    ++ "0,main,for.body,3,0,0,2,2,0,0,1,1,0,1,6,2,2,10,1,1,1" ++ newline.
Proof.
  rewrite (proj1 (C3_row_follows_header
                    (loop_features Sample.single (Sample.SE_const 9) "main" 0)
                    (open_writer Sample.no_files)) eq_refl).
  reflexivity.
Defined.

(** C3 fails as stated: the line of a record is not in the order in
    which section 4.2 of the specification lists the metrics, and it has
    18 metric columns after the three key columns, not 20. *)
Lemma C3_counterexample :
  let r := loop_features Sample.single (Sample.SE_const 9) "main" 0 in
  row_line r
  = "0,main,for.body,3,0,0,2,2,0,0,1,1,0,1,6,2,2,10,1,1,1" ++ newline /\
  spec_section_4_2_line r
  = "0,main,for.body,3,0,0,2,1,1,1,0,0,0,6,2,2,1,10,1,1" ++ newline /\
  row_line r <> spec_section_4_2_line r /\
  length (row_columns r) = (3 + 18)%nat.
Proof. cbn zeta. repeat split; try by vm_compute. Qed.

(** ** Further checks on the sample inputs *)

Lemma C4_return_unreachable_over_all_blocks_witness :
  ends_with_return (loop_features Sample.spin Sample.SE_unknown "f" 7) = true /\
  ends_with_unreachable (loop_features Sample.spin Sample.SE_unknown "f" 7) = true.
Proof.
  destruct (C4_return_unreachable_over_all_blocks
              Sample.spin Sample.SE_unknown "f" 7) as [Hret Hunr].
  split.
  - apply Hret. exists Sample.early_exit, Sample.ret1. repeat split.
    apply list_elem_of_In. simpl. tauto.
  - apply Hunr. exists Sample.trap, Sample.unreachable1. repeat split.
    apply list_elem_of_In. simpl. tauto.
Defined.

Lemma C7_distinct_predecessors_and_successors_witness :
  num_preds (loop_features Sample.outer (Sample.SE_const 9) "main" 0) = 4 /\
  num_succ (loop_features Sample.outer (Sample.SE_const 9) "main" 0) = 4 /\
  num_unique_predicates
    (loop_features Sample.outer (Sample.SE_const 9) "main" 0) = 4.
Proof.
  destruct (C7_distinct_predecessors_and_successors
              Sample.outer (Sample.SE_const 9) "main" 0)
    as (Hp & Hs & Hu).
  assert (Hpreds : num_preds
            (loop_features Sample.outer (Sample.SE_const 9) "main" 0) = 4)
    by (apply Hp; by vm_compute).
  split; [exact Hpreds |].
  split; [apply Hs; by vm_compute |].
  rewrite <- Hu. exact Hpreds.
Defined.

Lemma C10_flags_consistent_with_branch_count_witness :
  1 <= nums_branchs (loop_features Sample.single (Sample.SE_const 9) "main" 0) /\
  flag (ends_with_branch
          (loop_features Sample.single (Sample.SE_const 9) "main" 0)) = 1.
Proof.
  destruct (C10_flags_consistent_with_branch_count
              Sample.single (Sample.SE_const 9) "main" 0) as [Hiff Himp].
  split.
  - apply Hiff; [by vm_compute |]. apply Himp. reflexivity.
  - apply Himp. reflexivity.
Defined.

(** ** The instruction metrics *)

Lemma count_if_load_or_store (l : list Instruction) :
  count_if (fun i => isa_LoadInst i || isa_StoreInst i) l
  = count_if isa_LoadInst l + count_if isa_StoreInst l.
Proof.
  induction l as [|i l IH]; cbn [count_if]; [reflexivity |].
  rewrite IH. unfold isa_LoadInst, isa_StoreInst.
  destruct (getOpcode i); simpl; lia.
Qed.

Lemma instruction_classes_disjoint (l : list Instruction) :
  count_if isa_PHINode l + count_if isa_CallBase l
  + count_if (fun i => isa_LoadInst i || isa_StoreInst i) l
  + count_if isFloatArith l + count_if isa_BranchInst l
  <= Z.of_nat (length l).
Proof.
  induction l as [|i l IH]; cbn [count_if length]; [lia |].
  assert (Hone : (if isa_PHINode i then 1 else 0)
                 + (if isa_CallBase i then 1 else 0)
                 + (if isa_LoadInst i || isa_StoreInst i then 1 else 0)
                 + (if isFloatArith i then 1 else 0)
                 + (if isa_BranchInst i then 1 else 0) <= 1).
  { unfold isa_PHINode, isa_CallBase, isa_LoadInst, isa_StoreInst,
      isFloatArith, isa_BranchInst.
    destruct (getOpcode i); simpl; lia. }
  lia.
Qed.

(** X1: for a loop whose instructions can be counted in an [int],
    [num_instr] is the number of instructions of the member blocks, and
    [num_phis], [num_calls], [num_float_ops] and [nums_branchs] are the
    numbers of phi nodes, of calls (call, invoke, callbr), of
    fadd/fsub/fmul/fdiv and of br instructions among them;
    [num_memory_ops] is the number of loads plus the number of stores. *)
Theorem X1_instruction_counts
    (L : Loop) (SE : ScalarEvolution) (FuncName : string) (id : Z)
    (Hfit : Z.of_nat (length (loop_instructions (blocks L))) <= INT_MAX) :
  let r := loop_features L SE FuncName id in
  let l := loop_instructions (blocks L) in
  num_instr r = Z.of_nat (length l) /\
  num_phis r = count_if isa_PHINode l /\
  num_calls r = count_if isa_CallBase l /\
  num_memory_ops r = count_if isa_LoadInst l + count_if isa_StoreInst l /\
  num_float_ops r = count_if isFloatArith l /\
  nums_branchs r = count_if isa_BranchInst l.
Proof.
  cbn zeta. unfold loop_features;
    cbn [num_instr num_phis num_calls num_memory_ops num_float_ops
         nums_branchs].
  rewrite scan_blocks_spec; unfold_locals.
  rewrite !to_int_count by assumption.
  rewrite count_if_load_or_store.
  split_and!; try reflexivity.
  apply to_int_small. unfold in_int. lia.
Qed.

Lemma X1_instruction_counts_witness :
  let r := loop_features Sample.outer (Sample.SE_const 9) "main" 0 in
  num_instr r = 7 /\ num_phis r = 1 /\ num_calls r = 0 /\
  num_memory_ops r = 2 /\ num_float_ops r = 1 /\ nums_branchs r = 3.
Proof.
  cbn zeta.
  assert (Hfit : Z.of_nat (length (loop_instructions (blocks Sample.outer)))
                 <= INT_MAX) by (by vm_compute).
  exact (X1_instruction_counts Sample.outer (Sample.SE_const 9) "main" 0 Hfit).
Defined.

(** X2: in the record of a loop whose instructions can be counted in an
    [int], the five class counters are non-negative and together never
    exceed [num_instr]: no instruction is counted in two classes. *)
Theorem X2_class_counts_within_num_instr
    (L : Loop) (SE : ScalarEvolution) (FuncName : string) (id : Z)
    (Hfit : Z.of_nat (length (loop_instructions (blocks L))) <= INT_MAX) :
  let r := loop_features L SE FuncName id in
  0 <= num_phis r /\ 0 <= num_calls r /\ 0 <= num_memory_ops r /\
  0 <= num_float_ops r /\ 0 <= nums_branchs r /\
  num_phis r + num_calls r + num_memory_ops r + num_float_ops r
  + nums_branchs r <= num_instr r.
Proof.
  cbn zeta. unfold loop_features;
    cbn [num_instr num_phis num_calls num_memory_ops num_float_ops
         nums_branchs].
  rewrite scan_blocks_spec; unfold_locals.
  set (l := loop_instructions (blocks L)) in *.
  rewrite !to_int_count by assumption.
  rewrite (to_int_small (Z.of_nat (length l))) by (unfold in_int; lia).
  pose proof (instruction_classes_disjoint l).
  pose proof (count_if_nonneg isa_PHINode l).
  pose proof (count_if_nonneg isa_CallBase l).
  pose proof (count_if_nonneg (fun i => isa_LoadInst i || isa_StoreInst i) l).
  pose proof (count_if_nonneg isFloatArith l).
  pose proof (count_if_nonneg isa_BranchInst l).
  lia.
Qed.

Lemma X2_class_counts_within_num_instr_witness :
  let r := loop_features Sample.outer (Sample.SE_const 9) "main" 0 in
  num_phis r + num_calls r + num_memory_ops r + num_float_ops r
  + nums_branchs r <= num_instr r.
Proof.
  cbn zeta.
  assert (Hfit : Z.of_nat (length (loop_instructions (blocks Sample.outer)))
                 <= INT_MAX) by (by vm_compute).
  apply (X2_class_counts_within_num_instr
           Sample.outer (Sample.SE_const 9) "main" 0 Hfit).
Defined.

(** ** Operands and uses *)

Lemma sum_operands_nonneg (l : list Instruction) : 0 <= sum_operands l.
Proof. induction l as [|i l IH]; cbn [sum_operands]; lia. Qed.

Lemma sum_uses_all_users (L : Loop) (l : list Instruction) :
  sum_uses L l = count_if (user_in_loop L) (all_users l).
Proof.
  unfold all_users. induction l as [|i l IH]; cbn [sum_uses flat_map];
    [reflexivity |].
  by rewrite count_if_app, IH.
Qed.

Lemma count_if_none {A : Type} (p : A -> bool) (l : list A) :
  (forall x, x ∈ l -> p x = false) -> count_if p l = 0.
Proof.
  induction l as [|x l IH]; intros Hnone; cbn [count_if]; [reflexivity |].
  rewrite (Hnone x) by apply list_elem_of_here.
  rewrite IH; [lia |]. intros y Hy. apply Hnone. by apply list_elem_of_further.
Qed.

(** X3: for a loop whose uses can be counted in an [int], [num_uses] is
    the number of users, over all instructions of the member blocks, that
    are instructions placed in a member block: a user that is no
    instruction, or whose block is outside the loop, is not counted; so
    [num_uses] lies between 0 and the number of all users, and is 0 when
    no user sits in the loop.  With the operand counts fitting an [int],
    [num_operands] is their sum. *)
Theorem X3_uses_inside_the_loop
    (L : Loop) (SE : ScalarEvolution) (FuncName : string) (id : Z) :
  let r := loop_features L SE FuncName id in
  let l := loop_instructions (blocks L) in
  (Z.of_nat (length (all_users l)) <= INT_MAX ->
   num_uses r = count_if (user_in_loop L) (all_users l) /\
   0 <= num_uses r <= Z.of_nat (length (all_users l)) /\
   ((forall U, U ∈ all_users l -> user_in_loop L U = false) ->
    num_uses r = 0)) /\
  (sum_operands l <= INT_MAX -> num_operands r = sum_operands l).
Proof.
  cbn zeta. unfold loop_features; cbn [num_uses num_operands].
  rewrite scan_blocks_spec; unfold_locals.
  set (l := loop_instructions (blocks L)). split.
  - intros Hfit. rewrite sum_uses_all_users.
    rewrite (to_int_count (user_in_loop L) (all_users l) Hfit).
    pose proof (count_if_nonneg (user_in_loop L) (all_users l)).
    pose proof (count_if_le_length (user_in_loop L) (all_users l)).
    split_and!; try lia. intros Hnone. by apply count_if_none.
  - intros Hfit. apply to_int_small. unfold in_int.
    pose proof (sum_operands_nonneg l). lia.
Qed.

Lemma X3_uses_inside_the_loop_witness :
  num_uses (loop_features Sample.outer (Sample.SE_const 9) "main" 0) = 1 /\
  num_uses (loop_features Sample.inner (Sample.SE_const 9) "main" 0) = 0 /\
  num_operands (loop_features Sample.outer (Sample.SE_const 9) "main" 0) = 16.
Proof.
  destruct (X3_uses_inside_the_loop Sample.outer (Sample.SE_const 9) "main" 0)
    as [Huses Hops].
  destruct (X3_uses_inside_the_loop Sample.inner (Sample.SE_const 9) "main" 0)
    as [Hinner _].
  split; [apply Huses; by vm_compute |].
  split; [| apply Hops; by vm_compute].
  apply Hinner; [by vm_compute |].
  intros U HU. apply list_elem_of_In in HU. simpl in HU.
  destruct HU as [<- | [<- | [<- | []]]]; reflexivity.
Defined.

(** ** The trip count outside the range of [int64_t] *)

Lemma uint64_succ (x : Z) :
  0 <= x < 2 ^ 64 ->
  wrap_uint64 (x + 1) = if Z.eqb x (2 ^ 64 - 1) then 0 else x + 1.
Proof.
  intros Hx. unfold wrap_uint64. destruct (Z.eqb_spec x (2 ^ 64 - 1)) as [-> | Hne].
  - reflexivity.
  - apply Z.mod_small. lia.
Qed.

(** X4: when the oracle gives the constant [c], the recorded trip count
    is the 64-bit two's complement value of [c + 1]: it always lies in
    the range of [int64_t], it is [c + 1 - 2^64], a negative number, for
    [2^63 - 1 <= c < 2^64 - 1], and it is 0, the value also recorded for
    an unknown bound, exactly when the low 64 bits of [c] are all ones. *)
Theorem X4_trip_count_wraps
    (L : Loop) (SE : ScalarEvolution) (FuncName : string) (id c : Z)
    (Hconst : SE L = Some (SCEVConstant c)) :
  let r := loop_features L SE FuncName id in
  - 2 ^ 63 <= trip_count r < 2 ^ 63 /\
  (2 ^ 63 - 1 <= c < 2 ^ 64 - 1 ->
   trip_count r = c + 1 - 2 ^ 64 /\ trip_count r < 0) /\
  (trip_count r = 0 <-> c mod 2 ^ 64 = 2 ^ 64 - 1).
Proof.
  cbn zeta. unfold loop_features; cbn [trip_count].
  unfold compute_trip_count. rewrite Hconst.
  unfold getZExtValue, to_int64.
  assert (Hx : 0 <= wrap_uint64 c < 2 ^ 64)
    by (unfold wrap_uint64; apply Z.mod_pos_bound; lia).
  assert (Hidem : wrap_uint64 (wrap_uint64 (wrap_uint64 c + 1))
                  = wrap_uint64 (wrap_uint64 c + 1))
    by (unfold wrap_uint64; apply Z.mod_mod; lia).
  rewrite Hidem, (uint64_succ _ Hx).
  fold (wrap_uint64 c).
  destruct (Z.eqb_spec (wrap_uint64 c) (2 ^ 64 - 1)) as [Hones | Hnot].
  - change (Z.ltb 0 (2 ^ 63)) with true. cbv iota.
    split_and!; try lia.
    intros Hc. unfold wrap_uint64 in Hones.
    rewrite Z.mod_small in Hones by lia. lia.
  - destruct (Z.ltb_spec (wrap_uint64 c + 1) (2 ^ 63)) as [Hlt | Hge].
    + split_and!; try lia. intros Hc. unfold wrap_uint64 in Hlt.
      rewrite Z.mod_small in Hlt by lia. lia.
    + split_and!; try lia. intros Hc. unfold wrap_uint64.
      rewrite Z.mod_small by lia. lia.
Qed.

Lemma X4_trip_count_wraps_witness :
  trip_count (loop_features Sample.single (Sample.SE_const (2 ^ 64 - 1)) "main" 0)
  = 0 /\
  trip_count (loop_features Sample.single (Sample.SE_const (2 ^ 64 - 2)) "main" 0)
  = - 1.
Proof.
  split.
  - apply (X4_trip_count_wraps Sample.single (Sample.SE_const (2 ^ 64 - 1))
             "main" 0 (2 ^ 64 - 1) eq_refl).
    reflexivity.
  - apply (X4_trip_count_wraps Sample.single (Sample.SE_const (2 ^ 64 - 2))
             "main" 0 (2 ^ 64 - 2) eq_refl).
    lia.
Defined.

(** ** What a run touches *)

Lemma emit_appends (rs : list FeatureRecord) (st : State) :
  csv_contents (emit rs st)
  = csv_contents st ++ (if OutFile_is_open st then rows_text rs else "").
Proof.
  destruct (OutFile_is_open st) eqn:Hopen.
  - by apply emit_contents.
  - destruct rs as [|r rs]; unfold emit, put; rewrite ?Hopen;
      by rewrite append_nil_r.
Qed.

Lemma emit_closed (rs : list FeatureRecord) (st : State) :
  OutFile_is_open st = false -> emit rs st = st.
Proof.
  intros Hclosed. destruct rs as [|r rs]; [reflexivity |].
  unfold emit, put. by rewrite Hclosed.
Qed.

Lemma init_CurrentCodeID_frame (st : State) :
  loop_features_csv (init_CurrentCodeID st) = loop_features_csv st /\
  csv_can_open (init_CurrentCodeID st) = csv_can_open st /\
  code_id_txt (init_CurrentCodeID st) = code_id_txt st /\
  code_id_can_write (init_CurrentCodeID st) = code_id_can_write st /\
  OutFile_is_open (init_CurrentCodeID st) = OutFile_is_open st /\
  initialized (init_CurrentCodeID st) = initialized st.
Proof. unfold init_CurrentCodeID. by destruct (CurrentCodeID st). Qed.

Lemma init_CurrentCodeID_is_set (st : State) :
  exists id, CurrentCodeID (init_CurrentCodeID st) = Some id.
Proof.
  unfold init_CurrentCodeID. destruct (CurrentCodeID st) as [id|] eqn:Hid.
  - by exists id.
  - by exists (CodeIDCounter st).
Qed.

(** X5: a run only appends to the dataset: the contents found before it
    are a prefix of the contents after it, and with [OutFile] closed the
    file is left exactly as it was.  A run never touches [code_id.txt],
    never opens or closes [OutFile] and never resets the [initialized]
    flag. *)
Theorem X5_run_only_appends (M : Module_) (st : State) :
  (exists suffix, csv_contents (run M st) = csv_contents st ++ suffix) /\
  (OutFile_is_open st = false ->
   loop_features_csv (run M st) = loop_features_csv st) /\
  code_id_txt (run M st) = code_id_txt st /\
  code_id_can_write (run M st) = code_id_can_write st /\
  csv_can_open (run M st) = csv_can_open st /\
  OutFile_is_open (run M st) = OutFile_is_open st /\
  initialized (run M st) = initialized st.
Proof.
  rewrite run_emit.
  set (rs := module_records _ M).
  destruct (init_CurrentCodeID_frame st) as (Hcsv & Hco & Hid & Hcw & Hopen & Hini).
  destruct (emit_statics rs (init_CurrentCodeID st))
    as (Eopen & Eini & _ & _ & Eid & Ecw & Eco).
  split_and!.
  - assert (Hcontents : csv_contents (init_CurrentCodeID st) = csv_contents st)
      by (unfold csv_contents; by rewrite Hcsv).
    eexists. rewrite emit_appends, Hcontents. reflexivity.
  - intros Hclosed. rewrite emit_closed by (by rewrite Hopen). exact Hcsv.
  - by rewrite Eid.
  - by rewrite Ecw.
  - by rewrite Eco.
  - by rewrite Eopen.
  - by rewrite Eini.
Qed.

Lemma X5_run_only_appends_witness :
  loop_features_csv (run Sample.unit1 Sample.no_files) = None.
Proof.
  apply (proj1 (proj2 (X5_run_only_appends Sample.unit1 Sample.no_files))).
  reflexivity.
Defined.

(** X14: running the pass on two modules one after the other is running
    it once on their concatenation: the rows come out function by
    function in module order, and only the first run takes a run
    identifier. *)
Theorem X14_runs_compose (M1 M2 : Module_) (st : State) :
  run M2 (run M1 st) = run (M1 ++ M2)%list st.
Proof.
  destruct (init_CurrentCodeID_is_set st) as [id Hid].
  rewrite (run_emit M1), (run_emit (M1 ++ M2)%list), Hid.
  cbn [default from_option Datatypes.id].
  assert (Hset : CurrentCodeID (emit (module_records id M1) (init_CurrentCodeID st))
                 = Some id).
  { destruct (emit_statics (module_records id M1) (init_CurrentCodeID st))
      as (_ & _ & _ & -> & _). exact Hid. }
  rewrite run_emit, (init_CurrentCodeID_done _ id Hset), Hset.
  cbn [default from_option Datatypes.id].
  unfold module_records. by rewrite flat_map_app, emit_app.
Qed.

(** ** Whole processes *)

Lemma construct_new_process_files (files : State) :
  let st0 := construct (new_process files) in
  csv_can_open st0 = csv_can_open files /\
  code_id_txt st0 = code_id_txt files /\
  OutFile_is_open st0 = csv_can_open files /\
  (csv_can_open files = false ->
   loop_features_csv st0 = loop_features_csv files) /\
  (csv_can_open files = true ->
   csv_contents st0
   = if bool_decide (csv_contents files = "") then header_line
     else csv_contents files).
Proof.
  cbn zeta. unfold construct, initializeCodeIDCounter, initializeOutFile,
    new_process.
  cbn [initialized csv_can_open].
  destruct (csv_can_open files) eqn:Hopen.
  - unfold set_OutFile_is_open, set_csv, set_initialized, put, csv_contents.
    cbn [loop_features_csv OutFile_is_open default from_option Datatypes.id].
    fold (csv_contents files).
    case_bool_decide as Hempty;
      destruct (code_id_txt files) as [n|] eqn:E; cbn; rewrite ?E;
      split_and!; try done; intros _; by rewrite ?Hempty.
  - destruct (code_id_txt files) as [n|] eqn:E; cbn; rewrite ?E;
      split_and!; done.
Qed.

Lemma after_runs_cons (files : State) (M : Module_) (Ms : list Module_) :
  let st0 := construct (new_process files) in
  after_runs (M :: Ms) files
  = emit (flat_map (module_records (CodeIDCounter st0)) (M :: Ms))
      (init_CurrentCodeID st0).
Proof.
  cbn zeta. destruct (construct_new_process files) as (Hnone & _ & _).
  set (st0 := construct (new_process files)) in *.
  assert (Hinit : CurrentCodeID (init_CurrentCodeID st0)
                  = Some (CodeIDCounter st0))
    by (unfold init_CurrentCodeID; by rewrite Hnone).
  unfold after_runs. fold st0. cbn [fold_left flat_map].
  rewrite run_emit, Hinit. cbn [default from_option Datatypes.id].
  rewrite (fold_run_emit Ms _ (CodeIDCounter st0)), emit_app; [reflexivity |].
  destruct (emit_statics (module_records (CodeIDCounter st0) M)
              (init_CurrentCodeID st0)) as (_ & _ & _ & -> & _).
  exact Hinit.
Qed.

Lemma loaded_counter_range (files : State) :
  0 <= CodeIDCounter (construct (new_process files)) <= UINT_MAX.
Proof.
  destruct (construct_new_process files) as (_ & _ & ->).
  unfold extract_unsigned, UINT_MAX. destruct (code_id_txt files); lia.
Qed.

Lemma destroy_frame (st : State) :
  loop_features_csv (destroy st) = loop_features_csv st /\
  csv_contents (destroy st) = csv_contents st /\
  csv_can_open (destroy st) = csv_can_open st /\
  code_id_can_write (destroy st) = code_id_can_write st /\
  code_id_txt (destroy st)
  = (if code_id_can_write st then Some (Z.to_N (CodeIDCounter st))
     else code_id_txt st).
Proof.
  unfold destroy, saveCodeIDCounter.
  by destruct (code_id_can_write st) eqn:E.
Qed.

(** The state of a process after its runs, at least one. *)
Lemma after_runs_cons_files (files : State) (M : Module_) (Ms : list Module_) :
  let st0 := construct (new_process files) in
  let loaded := CodeIDCounter st0 in
  let records := flat_map (module_records loaded) (M :: Ms) in
  let st1 := after_runs (M :: Ms) files in
  csv_can_open st1 = csv_can_open files /\
  code_id_can_write st1 = code_id_can_write files /\
  code_id_txt st1 = code_id_txt files /\
  CodeIDCounter st1 = wrap_unsigned (loaded + 1) /\
  CurrentCodeID st1 = Some loaded /\
  (csv_can_open files = false ->
   loop_features_csv st1 = loop_features_csv files) /\
  (csv_can_open files = true ->
   csv_contents st1
   = (if bool_decide (csv_contents files = "") then header_line
      else csv_contents files) ++ rows_text records).
Proof.
  cbn zeta.
  destruct (construct_new_process files) as (Hnone & Hwrite & Hload).
  destruct (construct_new_process_files files)
    as (Hco & Hidf & Hopen & Hclosed_csv & Hopen_csv).
  rewrite after_runs_cons.
  set (st0 := construct (new_process files)) in *.
  set (loaded := CodeIDCounter st0) in *.
  set (records := flat_map (module_records loaded) (M :: Ms)) in *.
  destruct (init_CurrentCodeID_frame st0) as (Icsv & Ico & Iid & Icw & Iopen & _).
  assert (Icnt : CodeIDCounter (init_CurrentCodeID st0)
                 = wrap_unsigned (loaded + 1))
    by (unfold init_CurrentCodeID; by rewrite Hnone).
  assert (Icur : CurrentCodeID (init_CurrentCodeID st0) = Some loaded)
    by (unfold init_CurrentCodeID; by rewrite Hnone).
  assert (Icontents : csv_contents (init_CurrentCodeID st0) = csv_contents st0)
    by (unfold csv_contents; by rewrite Icsv).
  destruct (emit_statics records (init_CurrentCodeID st0))
    as (_ & _ & Ec & Ecur & Eid & Ecw & Eco).
  split_and!.
  - by rewrite Eco, Ico, Hco.
  - by rewrite Ecw, Icw, Hwrite.
  - by rewrite Eid, Iid, Hidf.
  - by rewrite Ec, Icnt.
  - by rewrite Ecur, Icur.
  - intros Hc. rewrite emit_closed by (by rewrite Iopen, Hopen).
    rewrite Icsv. by apply Hclosed_csv.
  - intros Hc. rewrite emit_contents by (by rewrite Iopen, Hopen).
    rewrite Icontents. f_equal. by apply Hopen_csv.
Qed.

(** The files and flags a process with at least one run leaves behind. *)
Lemma process_cons (files : State) (M : Module_) (Ms : list Module_) :
  let st0 := construct (new_process files) in
  let loaded := CodeIDCounter st0 in
  let records := flat_map (module_records loaded) (M :: Ms) in
  let done := process (M :: Ms) files in
  csv_can_open done = csv_can_open files /\
  code_id_can_write done = code_id_can_write files /\
  (code_id_can_write files = true ->
   code_id_txt done = Some (Z.to_N (wrap_unsigned (loaded + 1)))) /\
  (code_id_can_write files = false -> code_id_txt done = code_id_txt files) /\
  (csv_can_open files = false ->
   loop_features_csv done = loop_features_csv files) /\
  (csv_can_open files = true ->
   csv_contents done
   = (if bool_decide (csv_contents files = "") then header_line
      else csv_contents files) ++ rows_text records).
Proof.
  cbn zeta.
  destruct (after_runs_cons_files files M Ms)
    as (Hco & Hcw & Hidf & Hcnt & _ & Hclosed & Hopen).
  unfold process. fold (after_runs (M :: Ms) files).
  destruct (destroy_frame (after_runs (M :: Ms) files))
    as (Dcsv & Dcontents & Dco & Dcw & Did).
  rewrite Dcsv, Dcontents, Dco, Dcw, Did, Hcw, Hcnt, Hidf.
  split_and!; try done.
  - intros ->. reflexivity.
  - intros ->. reflexivity.
Qed.

Lemma append_nonempty (a b : string) : a <> "" -> a ++ b <> "".
Proof. destruct a as [|c a]; [congruence | discriminate]. Qed.

Lemma extract_saved_counter (w : Z) :
  0 <= w <= UINT_MAX -> extract_unsigned (Z.to_N w) = w.
Proof. intros Hw. unfold extract_unsigned. rewrite Z2N.id by lia. lia. Qed.

Lemma wrap_unsigned_range (z : Z) : 0 <= wrap_unsigned z <= UINT_MAX.
Proof.
  unfold wrap_unsigned, UINT_MAX.
  pose proof (Z.mod_pos_bound z (2 ^ 32)). lia.
Qed.

Lemma loaded_after (done : State) :
  CodeIDCounter (construct (new_process done))
  = match code_id_txt done with
    | Some n => extract_unsigned n
    | None => 0
    end.
Proof. by destruct (construct_new_process done) as (_ & _ & ->). Qed.

(** X6: when [loop_features.csv] cannot be opened the pass goes on: the
    file is left as it was (it is not even created) and no row is kept,
    yet the first run still takes the run identifier and the destructor
    saves the advanced counter. *)
Theorem X6_unopenable_dataset
    (files : State) (M : Module_) (Ms : list Module_)
    (Hclosed : csv_can_open files = false) :
  let loaded := CodeIDCounter (construct (new_process files)) in
  loop_features_csv (process (M :: Ms) files) = loop_features_csv files /\
  OutFile_is_open (after_runs (M :: Ms) files) = false /\
  CurrentCodeID (after_runs (M :: Ms) files) = Some loaded /\
  (code_id_can_write files = true ->
   code_id_txt (process (M :: Ms) files)
   = Some (Z.to_N (wrap_unsigned (loaded + 1)))).
Proof.
  cbn zeta.
  destruct (process_cons files M Ms) as (_ & _ & Hsave & _ & Hcsv & _).
  destruct (after_runs_cons_files files M Ms) as (_ & _ & _ & _ & Hcur & _).
  split_and!; [by apply Hcsv | | exact Hcur | exact Hsave].
  rewrite after_runs_cons.
  destruct (emit_statics
              (flat_map (module_records
                           (CodeIDCounter (construct (new_process files))))
                 (M :: Ms))
              (init_CurrentCodeID (construct (new_process files))))
    as (-> & _).
  destruct (init_CurrentCodeID_frame (construct (new_process files)))
    as (_ & _ & _ & _ & -> & _).
  destruct (construct_new_process_files files) as (_ & _ & -> & _).
  exact Hclosed.
Qed.

Lemma X6_unopenable_dataset_witness :
  let files := mkState None false None true false false 0 None in
  loop_features_csv (process [Sample.unit1] files) = None /\
  code_id_txt (process [Sample.unit1] files) = Some 1%N.
Proof.
  cbn zeta.
  destruct (X6_unopenable_dataset
              (mkState None false None true false false 0 None)
              Sample.unit1 [] eq_refl) as (Hcsv & _ & _ & Hsave).
  split; [exact Hcsv | exact (Hsave eq_refl)].
Defined.

(** X7: of two processes run one after the other over the same files,
    with [code_id.txt] writable, the second loads the counter the first
    saved: its run identifier is the first one plus one modulo 2^32.
    Started on an empty dataset that can be opened, the two leave one
    header, then the rows of the first process, then those of the
    second. *)
Theorem X7_consecutive_processes
    (files : State) (M1 M2 : Module_) (Ms1 Ms2 : list Module_)
    (Hwrite : code_id_can_write files = true) :
  let first := process (M1 :: Ms1) files in
  let id1 := CodeIDCounter (construct (new_process files)) in
  let id2 := CodeIDCounter (construct (new_process first)) in
  id2 = wrap_unsigned (id1 + 1) /\
  (id1 < UINT_MAX -> id2 = id1 + 1) /\
  (csv_can_open files = true -> csv_contents files = "" ->
   csv_contents (process (M2 :: Ms2) first)
   = header_line
     ++ rows_text (flat_map (module_records id1) (M1 :: Ms1))
     ++ rows_text (flat_map (module_records id2) (M2 :: Ms2))).
Proof.
  cbn zeta.
  destruct (process_cons files M1 Ms1) as (Hco & Hcw & Hsave & _ & _ & Hcsv).
  pose proof (loaded_counter_range files) as Hrange.
  set (id1 := CodeIDCounter (construct (new_process files))) in *.
  assert (Hid2 : CodeIDCounter (construct (new_process (process (M1 :: Ms1) files)))
                 = wrap_unsigned (id1 + 1)).
  { rewrite loaded_after, (Hsave Hwrite).
    apply extract_saved_counter, wrap_unsigned_range. }
  split_and!.
  - exact Hid2.
  - intros Hlt. rewrite Hid2. unfold wrap_unsigned, UINT_MAX in *.
    apply Z.mod_small. lia.
  - intros Hopen Hempty.
    destruct (process_cons (process (M1 :: Ms1) files) M2 Ms2)
      as (_ & _ & _ & _ & _ & Hcsv2).
    assert (Hfirst : csv_contents (process (M1 :: Ms1) files)
                     = header_line
                       ++ rows_text (flat_map (module_records id1) (M1 :: Ms1))).
    { rewrite (Hcsv Hopen), Hempty. by rewrite bool_decide_eq_true_2. }
    rewrite Hcsv2 by (by rewrite Hco).
    rewrite Hfirst, Hid2.
    rewrite bool_decide_eq_false_2
      by (apply append_nonempty, header_line_nonempty).
    by rewrite append_assoc.
Qed.

Lemma X7_consecutive_processes_witness :
  CodeIDCounter
    (construct (new_process (process [Sample.unit1] Sample.no_files))) = 1 /\
  csv_contents (process [Sample.unit1] (process [Sample.unit1] Sample.no_files))
  = header_line
    ++ rows_text (module_records 0 Sample.unit1)
    ++ rows_text (module_records 1 Sample.unit1).
Proof.
  destruct (X7_consecutive_processes Sample.no_files Sample.unit1 Sample.unit1
              [] [] eq_refl) as (_ & Hnext & Hcsv).
  split; [apply Hnext; by vm_compute |].
  rewrite (Hcsv eq_refl eq_refl). reflexivity.
Defined.

(** X8: a process in which the pass is constructed and destroyed but
    never run takes no run identifier: with [code_id.txt] writable the
    destructor writes back the loaded counter (creating the file with 0
    when it was missing), so the next process loads the same value; the
    header is still written to an empty dataset that can be opened. *)
Theorem X8_process_without_run (files : State) :
  let loaded := CodeIDCounter (construct (new_process files)) in
  CurrentCodeID (after_runs [] files) = None /\
  (code_id_can_write files = true ->
   code_id_txt (process [] files) = Some (Z.to_N loaded) /\
   CodeIDCounter (construct (new_process (process [] files))) = loaded) /\
  (csv_can_open files = true -> csv_contents files = "" ->
   csv_contents (process [] files) = header_line).
Proof.
  cbn zeta.
  destruct (construct_new_process files) as (Hnone & Hwrite & Hload).
  destruct (construct_new_process_files files) as (_ & _ & _ & _ & Hcsv).
  pose proof (loaded_counter_range files) as Hrange.
  unfold process, after_runs. cbn [fold_left].
  destruct (destroy_frame (construct (new_process files)))
    as (_ & Dcontents & _ & _ & Did).
  split_and!.
  - exact Hnone.
  - intros Hcan. rewrite Hwrite, Hcan in Did. split; [exact Did |].
    rewrite loaded_after, Did. by apply extract_saved_counter.
  - intros Hopen Hempty. rewrite Dcontents, (Hcsv Hopen), Hempty.
    by rewrite bool_decide_eq_true_2.
Qed.

Lemma X8_process_without_run_witness :
  code_id_txt (process [] Sample.no_files) = Some 0%N /\
  csv_contents (process [] Sample.no_files) = header_line.
Proof.
  destruct (X8_process_without_run Sample.no_files) as (_ & Hsave & Hcsv).
  split; [exact (proj1 (Hsave eq_refl)) | exact (Hcsv eq_refl eq_refl)].
Defined.

(** X9: when [code_id.txt] cannot be written the destructor leaves it as
    it was, so the next process loads the same counter and reuses the
    run identifier. *)
Theorem X9_unwritable_counter_reuses_identifier
    (files : State) (Ms : list Module_)
    (Hno : code_id_can_write files = false) :
  code_id_txt (process Ms files) = code_id_txt files /\
  CodeIDCounter (construct (new_process (process Ms files)))
  = CodeIDCounter (construct (new_process files)).
Proof.
  assert (Hsame : code_id_txt (process Ms files) = code_id_txt files).
  { destruct Ms as [|M Ms].
    - unfold process. cbn [fold_left].
      destruct (destroy_frame (construct (new_process files)))
        as (_ & _ & _ & _ & ->).
      destruct (construct_new_process files) as (_ & -> & _).
      destruct (construct_new_process_files files) as (_ & -> & _).
      by rewrite Hno.
    - by apply (process_cons files M Ms). }
  split; [exact Hsame |].
  by rewrite (loaded_after (process Ms files)), Hsame, <- (loaded_after files).
Qed.

Lemma X9_unwritable_counter_reuses_identifier_witness :
  let files := mkState None true (Some 7%N) false false false 0 None in
  CodeIDCounter (construct (new_process (process [Sample.unit1] files))) = 7.
Proof.
  cbn zeta.
  rewrite (proj2 (X9_unwritable_counter_reuses_identifier
                    (mkState None true (Some 7%N) false false false 0 None)
                    [Sample.unit1] eq_refl)).
  reflexivity.
Defined.

(** ** Several pass objects in one process *)

Lemma construct_statics (st : State) :
  CodeIDCounter (construct st)
  = match code_id_txt st with
    | Some n => extract_unsigned n
    | None => 0
    end /\
  CurrentCodeID (construct st) = CurrentCodeID st /\
  code_id_txt (construct st) = code_id_txt st /\
  code_id_can_write (construct st) = code_id_can_write st.
Proof.
  unfold construct, initializeCodeIDCounter, initializeOutFile.
  destruct (initialized st); [| destruct (csv_can_open st);
                                [destruct (bool_decide _) |]];
    (destruct (code_id_txt st) as [n|] eqn:E; cbn; rewrite ?E; done).
Qed.

(** X10: the constructor reads [code_id.txt] again for every pass object.
    An object constructed after the first run, before any destructor has
    saved the counter, puts the in-memory counter back to the loaded
    value while the run identifier stays the same; destroying the objects
    then saves the loaded value, not the advanced one. *)
Theorem X10_second_construction_reloads (files : State) (M : Module_) :
  let st0 := construct (new_process files) in
  let loaded := CodeIDCounter st0 in
  let again := construct (run M st0) in
  CodeIDCounter (run M st0) = wrap_unsigned (loaded + 1) /\
  CodeIDCounter again = loaded /\
  CurrentCodeID again = Some loaded /\
  (code_id_can_write files = true ->
   code_id_txt (destroy (destroy again)) = Some (Z.to_N loaded)).
Proof.
  cbn zeta.
  destruct (after_runs_cons_files files M [])
    as (_ & Hcw & Hidf & Hcnt & Hcur & _).
  change (after_runs [M] files)
    with (run M (construct (new_process files))) in *.
  destruct (construct_statics (run M (construct (new_process files))))
    as (Ccnt & Ccur & Cidf & Ccw).
  assert (Hagain : CodeIDCounter (construct (run M (construct (new_process files))))
                   = CodeIDCounter (construct (new_process files))).
  { rewrite Ccnt, Hidf. symmetry. apply loaded_after. }
  split_and!.
  - exact Hcnt.
  - exact Hagain.
  - by rewrite Ccur.
  - intros Hcan.
    destruct (destroy_frame (construct (run M (construct (new_process files)))))
      as (_ & _ & _ & Dcw & Did).
    destruct (destroy_frame
                (destroy (construct (run M (construct (new_process files))))))
      as (_ & _ & _ & _ & ->).
    rewrite Dcw, Ccw, Hcw, Hcan.
    unfold destroy at 1, saveCodeIDCounter. rewrite Ccw, Hcw, Hcan.
    cbn [CodeIDCounter set_code_id_txt]. by rewrite Hagain.
Qed.

Lemma X10_second_construction_reloads_witness :
  code_id_txt
    (destroy (destroy (construct
       (run Sample.unit1 (construct (new_process Sample.no_files))))))
  = Some 0%N.
Proof.
  exact (proj2 (proj2 (proj2
           (X10_second_construction_reloads Sample.no_files Sample.unit1)))
           eq_refl).
Defined.

(** ** Registration through the plugin *)

Lemma set_code_id_txt_twice (v w : option N) (st : State) :
  set_code_id_txt v (set_code_id_txt w st) = set_code_id_txt v st.
Proof. reflexivity. Qed.

Lemma iter_destroy (k : nat) (st : State) :
  Nat.iter (S k) destroy st = destroy st.
Proof.
  induction k as [|k IH]; [reflexivity |].
  change (Nat.iter (S (S k)) destroy st)
    with (destroy (Nat.iter (S k) destroy st)).
  rewrite IH. unfold destroy, saveCodeIDCounter.
  destruct (code_id_can_write st) eqn:E;
    cbn [code_id_can_write set_code_id_txt CodeIDCounter];
    by rewrite E.
Qed.

Lemma emit_set_code_id_txt (v : option N) (rs : list FeatureRecord) (st : State) :
  emit rs (set_code_id_txt v st) = set_code_id_txt v (emit rs st).
Proof.
  destruct rs as [|r rs]; [reflexivity |].
  destruct st as [csv co idf iw [|] ini cnt cur]; reflexivity.
Qed.

Lemma run_set_code_id_txt (v : option N) (M : Module_) (st : State) :
  run M (set_code_id_txt v st) = set_code_id_txt v (run M st).
Proof.
  rewrite !run_emit.
  assert (Hinit : init_CurrentCodeID (set_code_id_txt v st)
                  = set_code_id_txt v (init_CurrentCodeID st)).
  { destruct st as [csv co idf iw op ini cnt [cur|]]; reflexivity. }
  rewrite Hinit. cbn [CurrentCodeID set_code_id_txt].
  apply emit_set_code_id_txt.
Qed.

Lemma fold_run_set_code_id_txt (v : option N) (Ms : list Module_) (st : State) :
  fold_left (fun st' M => run M st') Ms (set_code_id_txt v st)
  = set_code_id_txt v (fold_left (fun st' M => run M st') Ms st).
Proof.
  revert st; induction Ms as [|M Ms IH]; intros st; [reflexivity |].
  cbn [fold_left]. by rewrite run_set_code_id_txt, IH.
Qed.

Lemma fold_run_can_write (Ms : list Module_) (st : State) :
  code_id_can_write (fold_left (fun st' M => run M st') Ms st)
  = code_id_can_write st.
Proof.
  revert st; induction Ms as [|M Ms IH]; intros st; [reflexivity |].
  cbn [fold_left]. rewrite IH, run_emit.
  destruct (emit_statics
              (module_records
                 (default 0 (CurrentCodeID (init_CurrentCodeID st))) M)
              (init_CurrentCodeID st)) as (_ & _ & _ & _ & _ & -> & _).
  by destruct (init_CurrentCodeID_frame st) as (_ & _ & _ & -> & _).
Qed.

(** X11: the pipeline-parsing callback adds the pass for the name
    ["loop-features"] only, and leaves everything as it is for any other
    name.  The pass objects destroyed during registration, however many,
    save the counter that was just loaded, so a process driven through
    the plugin ends in the same state as one that constructs the pass,
    runs it and destroys it. *)
Theorem X11_plugin_registration
    (copies : nat) (Ms : list Module_) (files : State) :
  (forall Name st, Name <> "loop-features" ->
     pipelineParsingCallback Name copies st = (false, st)) /\
  (forall st, fst (pipelineParsingCallback "loop-features" copies st) = true) /\
  plugin_process "loop-features" copies Ms files = process Ms files /\
  (forall Name, Name <> "loop-features" ->
     plugin_process Name copies Ms files = new_process files).
Proof.
  assert (Hother : forall Name st, Name <> "loop-features" ->
            pipelineParsingCallback Name copies st = (false, st)).
  { intros Name st Hne. unfold pipelineParsingCallback.
    by rewrite (proj2 (String.eqb_neq Name "loop-features") Hne). }
  split_and!.
  - exact Hother.
  - reflexivity.
  - unfold plugin_process, pipelineParsingCallback, process.
    change (String.eqb "loop-features" "loop-features") with true.
    cbn [fst snd]. rewrite iter_destroy.
    set (st0 := construct (new_process files)).
    unfold destroy at 2, saveCodeIDCounter.
    destruct (code_id_can_write st0) eqn:Hcan; [| reflexivity].
    rewrite fold_run_set_code_id_txt.
    unfold destroy, saveCodeIDCounter.
    cbn [code_id_can_write CodeIDCounter set_code_id_txt].
    by rewrite fold_run_can_write, Hcan.
  - intros Name Hne. unfold plugin_process.
    by rewrite (Hother Name (new_process files) Hne).
Qed.

Lemma X11_plugin_registration_witness :
  plugin_process "loop-features" 1 [Sample.unit1] Sample.no_files
  = process [Sample.unit1] Sample.no_files /\
  plugin_process "instcombine" 1 [Sample.unit1] Sample.no_files
  = new_process Sample.no_files.
Proof.
  destruct (X11_plugin_registration 1 [Sample.unit1] Sample.no_files)
    as (_ & _ & Hsame & Hother).
  split; [exact Hsame |]. apply Hother. discriminate.
Defined.

(** ** Lines of the dataset *)

Lemma count_char_app (c : ascii) (a b : string) :
  count_char c (a ++ b) = (count_char c a + count_char c b)%nat.
Proof.
  induction a as [|ch a IH]; [reflexivity |].
  change (String ch a ++ b) with (String ch (a ++ b)).
  cbn [count_char]. rewrite IH. lia.
Qed.

Lemma count_char_absent (c : ascii) (s : string) :
  string_has c s = false -> count_char c s = 0%nat.
Proof.
  induction s as [|ch s IH]; [reflexivity |].
  cbn [string_has count_char]. intros [Hc Hs]%orb_false_iff.
  by rewrite Hc, (IH Hs).
Qed.

Lemma string_of_uint_no_newline (d : Decimal.uint) :
  string_has newline_char (NilEmpty.string_of_uint d) = false.
Proof. induction d; cbn [NilEmpty.string_of_uint string_has]; done. Qed.

Lemma string_of_Z_no_newline (z : Z) :
  string_has newline_char (string_of_Z z) = false.
Proof.
  unfold string_of_Z, NilZero.string_of_int, NilZero.string_of_uint.
  destruct (Z.to_int z) as [d|d]; destruct d;
    cbn [string_has]; try reflexivity;
    try (rewrite string_of_uint_no_newline; reflexivity);
    cbn [NilEmpty.string_of_uint string_has];
    by rewrite string_of_uint_no_newline.
Qed.

Lemma count_char_joined (columns : list string) :
  forallb (fun w => negb (string_has newline_char w)) columns = true ->
  count_char newline_char (String.concat "," columns) = 0%nat.
Proof.
  induction columns as [|c [|c' rest] IH]; intros Hall.
  - reflexivity.
  - cbn [forallb] in Hall. apply andb_true_iff in Hall as [Hc _].
    apply negb_true_iff in Hc. by apply count_char_absent.
  - change (String.concat "," (c :: c' :: rest))
      with (c ++ "," ++ String.concat "," (c' :: rest)).
    change (forallb (fun w => negb (string_has newline_char w))
              (c :: c' :: rest))
      with (negb (string_has newline_char c)
            && forallb (fun w => negb (string_has newline_char w))
                 (c' :: rest)) in Hall.
    apply andb_true_iff in Hall as [Hc Hrest]. apply negb_true_iff in Hc.
    rewrite !count_char_app, (count_char_absent _ _ Hc), (IH Hrest).
    reflexivity.
Qed.

Lemma row_line_one_newline (r : FeatureRecord) :
  names_without newline_char r = true ->
  count_char newline_char (row_line r) = 1%nat.
Proof.
  unfold names_without. intros [Hfn Hhdr]%andb_true_iff.
  unfold row_line. rewrite count_char_app, count_char_joined; [reflexivity |].
  unfold row_columns. cbn [forallb].
  rewrite Hfn, Hhdr, !string_of_Z_no_newline. reflexivity.
Qed.

Lemma rows_text_newlines (rs : list FeatureRecord) :
  forallb (names_without newline_char) rs = true ->
  count_char newline_char (rows_text rs) = length rs.
Proof.
  induction rs as [|r rs IH]; intros Hall; [reflexivity |].
  cbn [forallb] in Hall. apply andb_true_iff in Hall as [Hr Hrs].
  unfold rows_text in *. cbn [map length].
  rewrite concat_empty_cons, count_char_app, (row_line_one_newline r Hr),
    (IH Hrs).
  reflexivity.
Qed.

Lemma length_function_records (id : Z) (F : Function) :
  length (function_records id F) = length (loops_of_function F).
Proof.
  unfold function_records, loops_of_function.
  destruct (isDeclaration F); [reflexivity |].
  induction (LI F) as [|L Ls IH]; [reflexivity |].
  cbn [flat_map]. rewrite !length_app, IH. unfold loop_records.
  by rewrite length_map.
Qed.

Lemma length_module_records (id : Z) (M : Module_) :
  length (module_records id M) = length (loops_of_module M).
Proof.
  unfold module_records, loops_of_module.
  induction M as [|F M IH]; [reflexivity |].
  cbn [flat_map]. by rewrite !length_app, IH, length_function_records.
Qed.

(** X12: with the dataset open and no newline in the function and header
    names that are written, a run adds to the dataset exactly as many
    lines as there are loops, at every nesting level, in the functions
    of the module that have a body. *)
Theorem X12_one_line_per_loop (M : Module_) (st : State)
    (Hopen : OutFile_is_open st = true)
    (Hnames : forallb (names_without newline_char)
                (module_records
                   (default 0 (CurrentCodeID (init_CurrentCodeID st))) M)
              = true) :
  count_char newline_char (csv_contents (run M st))
  = (count_char newline_char (csv_contents st)
     + length (loops_of_module M))%nat.
Proof.
  rewrite run_emit.
  destruct (init_CurrentCodeID_frame st) as (Hcsv & _ & _ & _ & Hop & _).
  rewrite emit_contents by (by rewrite Hop).
  rewrite count_char_app, (rows_text_newlines _ Hnames),
    length_module_records.
  unfold csv_contents. by rewrite Hcsv.
Qed.

Lemma X12_one_line_per_loop_witness :
  count_char newline_char
    (csv_contents (run Sample.unit1 (open_writer Sample.no_files)))
  = 4%nat.
Proof.
  rewrite (X12_one_line_per_loop Sample.unit1 (open_writer Sample.no_files)
             eq_refl eq_refl).
  reflexivity.
Defined.

(** ** Records of nested loops *)

Lemma loop_instructions_incl (bs1 bs2 : list BasicBlock) (i : Instruction) :
  (forall BB, BB ∈ bs1 -> BB ∈ bs2) ->
  i ∈ loop_instructions bs1 -> i ∈ loop_instructions bs2.
Proof.
  intros Hincl. rewrite !elem_of_loop_instructions.
  intros [BB [HBB Hi]]. exists BB. split; [by apply Hincl | exact Hi].
Qed.

Lemma existsb_incl {A : Type} (p : A -> bool) (l1 l2 : list A) :
  (forall x, x ∈ l1 -> x ∈ l2) ->
  existsb p l1 = true -> existsb p l2 = true.
Proof.
  intros Hincl. rewrite !existsb_elem_of.
  intros [x [Hx Hp]]. exists x. split; [by apply Hincl | exact Hp].
Qed.

Lemma neighbours_incl (f : BasicBlock -> list positive)
    (bs1 bs2 : list BasicBlock) :
  (forall BB, BB ∈ bs1 -> BB ∈ bs2) ->
  (list_to_set (flat_map f bs1) : gset positive)
  ⊆ list_to_set (flat_map f bs2).
Proof.
  intros Hincl p. rewrite !elem_of_list_to_set.
  intros Hp%list_elem_of_In%in_flat_map. destruct Hp as [BB [HBB Hp]].
  apply list_elem_of_In, in_flat_map. exists BB. split; [| exact Hp].
  by apply list_elem_of_In, Hincl, list_elem_of_In.
Qed.

(** X13: when every member block of a loop [Sub] is a member block of a
    loop [P], as [LoopInfo] has it for a loop and the loops around it,
    each of the four flags set in the record of [Sub] is set in the
    record of [P], and [num_preds] and [num_succ] of [Sub] do not exceed
    those of [P] (the numbers of [P] fitting an [int]). *)
Theorem X13_enclosing_loop_dominates
    (P Sub : Loop) (SE : ScalarEvolution) (FuncName : string) (id : Z)
    (Hincl : forall BB, BB ∈ blocks Sub -> BB ∈ blocks P) :
  let rs := loop_features Sub SE FuncName id in
  let rp := loop_features P SE FuncName id in
  (ends_with_branch rs = true -> ends_with_branch rp = true) /\
  (ends_with_cond_branch rs = true -> ends_with_cond_branch rp = true) /\
  (ends_with_return rs = true -> ends_with_return rp = true) /\
  (ends_with_unreachable rs = true -> ends_with_unreachable rp = true) /\
  (Z.of_nat (length (remove_dups (flat_map predecessors (blocks P))))
   <= INT_MAX -> num_preds rs <= num_preds rp) /\
  (Z.of_nat (length (remove_dups (flat_map successors (blocks P))))
   <= INT_MAX -> num_succ rs <= num_succ rp).
Proof.
  cbn zeta. unfold loop_features;
    cbn [ends_with_branch ends_with_cond_branch ends_with_return
         ends_with_unreachable num_preds num_succ].
  rewrite !scan_blocks_spec; unfold_locals.
  pose proof (loop_instructions_incl (blocks Sub) (blocks P)) as Hinstr.
  split_and!.
  - apply existsb_incl. intros i. by apply Hinstr.
  - apply existsb_incl. intros i. by apply Hinstr.
  - by apply existsb_incl.
  - by apply existsb_incl.
  - intros Hfit.
    pose proof (subseteq_size _ _ (neighbours_incl predecessors _ _ Hincl))
      as Hsize.
    rewrite !size_list_to_set_dedup in *.
    rewrite !to_int_small by (unfold in_int; lia). lia.
  - intros Hfit.
    pose proof (subseteq_size _ _ (neighbours_incl successors _ _ Hincl))
      as Hsize.
    rewrite !size_list_to_set_dedup in *.
    rewrite !to_int_small by (unfold in_int; lia). lia.
Qed.

Lemma X13_enclosing_loop_dominates_witness :
  ends_with_cond_branch
    (loop_features Sample.outer (Sample.SE_const 9) "main" 0) = true /\
  num_preds (loop_features Sample.inner (Sample.SE_const 9) "main" 0)
  <= num_preds (loop_features Sample.outer (Sample.SE_const 9) "main" 0).
Proof.
  assert (Hincl : forall BB, BB ∈ blocks Sample.inner ->
                             BB ∈ blocks Sample.outer).
  { intros BB HBB. apply list_elem_of_In in HBB. simpl in HBB.
    destruct HBB as [<- | []]. apply list_elem_of_In. simpl. tauto. }
  destruct (X13_enclosing_loop_dominates Sample.outer Sample.inner
              (Sample.SE_const 9) "main" 0 Hincl)
    as (_ & Hcond & _ & _ & Hpreds & _).
  split; [apply Hcond; reflexivity | apply Hpreds; by vm_compute].
Defined.
